(** * Screening scripts: a shallow embedding and its verified properties

    Two Python scripts are modelled here:
    - [tv_equity_scanner.py]: loads the S&P 500 / Russell 3000 ticker
      universes, builds TradingView (exchange, symbol) candidates for each
      ticker, polls the technical-analysis service and writes one CSV of
      BUY / STRONG_BUY rows per timeframe;
    - [top_500_4h.py]: the same loop for the 500 largest coins.

    Modelling conventions.
    - A Python [str] is a [string] of 8-bit characters; case mapping is the
      ASCII one.
    - A computation that may raise returns [res A]; [try/except Exception]
      is a [match] on it.
    - The outside world (files, HTTP, the rating service, the iteration
      order of a [set]) is a record of functions.  The rating service is
      indexed by the number of calls made so far, so its answers may change
      from one call to the next.
    - Observable effects (queries, sleeps, console lines, files written)
      are collected in a list of events, oldest first.
    - Durations and market caps are rationals: the scripts only pass them
      on and compare them. *)

From Stdlib Require Import List String Ascii Bool Arith ZArith QArith Lia.
From Stdlib Require Import Permutation Sorted DecimalString.
Import ListNotations.

Local Open Scope string_scope.
Local Open Scope list_scope.
Local Open Scope nat_scope.

(** ** Python exceptions

    [exn] lists exceptions derived from [Exception]: the ones the scripts
    raise themselves and [ExternalError] for whatever a library call
    (requests, pandas, tradingview_ta) raises.  [sys.exit] is an outcome
    of [main], not an [exn]. *)

Inductive exn : Type :=
| RuntimeError (msg : string)
| KeyError (key : string)
| ExternalError (what : string).

Inductive res (A : Type) : Type :=
| Ok (a : A)
| Raise (e : exn).

Arguments Ok {A} a.
Arguments Raise {A} e.

(** How a script run ends: normally, by [sys.exit(code)], or by an
    exception nobody caught. *)
Inductive outcome : Type :=
| Done
| Exit (code : Z)
| Uncaught (e : exn).

(** ** Operations of Python's [str] *)

Module PyStr.

Fixpoint map_chars (f : ascii -> ascii) (s : string) : string :=
  match s with
  | EmptyString => EmptyString
  | String c s' => String (f c) (map_chars f s')
  end.

Fixpoint drop_chars (p : ascii -> bool) (s : string) : string :=
  match s with
  | EmptyString => EmptyString
  | String c s' => if p c then drop_chars p s' else String c (drop_chars p s')
  end.

Fixpoint has_char (c : ascii) (s : string) : bool :=
  match s with
  | EmptyString => false
  | String d s' => Ascii.eqb d c || has_char c s'
  end.

Definition upper_char (c : ascii) : ascii :=
  let n := N_of_ascii c in
  if ((97 <=? n) && (n <=? 122))%N then ascii_of_N (n - 32) else c.

Definition lower_char (c : ascii) : ascii :=
  let n := N_of_ascii c in
  if ((65 <=? n) && (n <=? 90))%N then ascii_of_N (n + 32) else c.

Definition upper : string -> string := map_chars upper_char.
Definition lower : string -> string := map_chars lower_char.

(** [s.replace(a, b)] for one-character [a] and [b]. *)
Definition replace (a b : ascii) : string -> string :=
  map_chars (fun c => if Ascii.eqb c a then b else c).

(** [s.replace(a, "")] for a one-character [a]. *)
Definition remove (a : ascii) : string -> string :=
  drop_chars (fun c => Ascii.eqb c a).

(** [str.isspace] on ASCII: TAB..CR, FS..US and the blank. *)
Definition is_space (c : ascii) : bool :=
  let n := N_of_ascii c in
  (((9 <=? n) && (n <=? 13)) || ((28 <=? n) && (n <=? 32)))%N.

Fixpoint lstrip (s : string) : string :=
  match s with
  | EmptyString => EmptyString
  | String c s' => if is_space c then lstrip s' else s
  end.

Fixpoint rstrip (s : string) : string :=
  match s with
  | EmptyString => EmptyString
  | String c s' =>
      match rstrip s' with
      | EmptyString => if is_space c then EmptyString else String c EmptyString
      | r => String c r
      end
  end.

Definition strip (s : string) : string := rstrip (lstrip s).

(** [sub in s] *)
Fixpoint contains (sub s : string) : bool :=
  String.prefix sub s ||
  match s with
  | EmptyString => false
  | String _ s' => contains sub s'
  end.

(** [x in (a, b, ...)] for strings. *)
Definition mem (x : string) (l : list string) : bool :=
  existsb (String.eqb x) l.

Definition of_nat (n : nat) : string := NilZero.string_of_uint (Nat.to_uint n).
Definition of_Z (z : Z) : string := NilZero.string_of_int (Z.to_int z).

End PyStr.

(** ** Tables read by pandas

    A [DataFrame] is the list of its columns, each a header and the cells
    after [astype(str)]. *)

Definition DataFrame : Type := list (string * list string).

(** The clean-up chain every loader applies to the ticker column:
    [.str.replace(".", "-").str.replace("/", "-").str.replace(" ", "").str.upper()] *)
Definition normalize (s : string) : string :=
  PyStr.upper (PyStr.remove " " (PyStr.replace "/" "-" (PyStr.replace "." "-" s))).

(** Normalization as the specification words it: uppercase, with "." and
    "/" mapped to "-".  Kept apart from [normalize] to compare the two. *)
Definition normalize_as_specified (s : string) : string :=
  PyStr.upper (PyStr.replace "/" "-" (PyStr.replace "." "-" s)).

(** ** The technical-analysis service

    [TA_Handler(symbol, exchange, screener, interval).get_analysis().summary]
    either raises or yields the summary dictionary.  The first argument is
    the number of calls already made. *)

Definition summary : Type := list (string * string).

Fixpoint dict_get (d : summary) (k : string) : option string :=
  match d with
  | [] => None
  | (k', v) :: d' => if String.eqb k k' then Some v else dict_get d' k
  end.

Definition ta_service : Type :=
  nat -> string -> string -> string -> string -> res summary.

(** [rec in ("BUY", "STRONG_BUY")] *)
Definition buy_label (r : string) : bool := PyStr.mem r ["BUY"; "STRONG_BUY"].

(** Stable insertion sort; stands for [DataFrame.sort_values]. *)
Fixpoint insert_by {A : Type} (le : A -> A -> bool) (x : A) (l : list A) : list A :=
  match l with
  | [] => [x]
  | y :: l' => if le x y then x :: l else y :: insert_by le x l'
  end.

Fixpoint sort_by {A : Type} (le : A -> A -> bool) (l : list A) : list A :=
  match l with
  | [] => []
  | x :: l' => insert_by le x (sort_by le l')
  end.

(** ** tv_equity_scanner.py *)

Module Equity.

Record globals : Type := {
  SLEEP_BETWEEN_CALLS : Q;
  HTTP_TIMEOUT : Z;
  EQUITY_EXCHANGES : list string
}.

Definition module_globals : globals := {|
  SLEEP_BETWEEN_CALLS := 15 # 100;
  HTTP_TIMEOUT := 20;
  EQUITY_EXCHANGES := ["NASDAQ"; "NYSE"; "AMEX"]
|}.

Record row : Type := {
  ticker : string;
  tv_exchange : string;
  tv_symbol : string;
  rating : string;
  timeframe : string
}.

Inductive event : Type :=
| EvQuery (n : nat) (exchange symbol interval : string)
| EvSleep (seconds : Q)
| EvPrint (line : string)
| EvPrintErr (line : string)
| EvWrite (out_file : string) (table : list row).

(** What the scanner sees of the outside world.
    - [http_read_html url]: [requests.get], [raise_for_status] and
      [pd.read_html] on the body;
    - [http_read_csv url]: the same with [pd.read_csv];
    - [read_csv path]: [pd.read_csv] on a local file;
    - [set_iter s]: the order in which a [set] built by inserting the
      elements of [s] is iterated. *)
Record world : Type := {
  ta : ta_service;
  http_read_html : string -> res (list DataFrame);
  http_read_csv : string -> res DataFrame;
  read_csv : string -> res DataFrame;
  set_iter : list string -> list string
}.

(** Python leaves the iteration order of a set unspecified: any
    enumeration without repetition is possible. *)
Definition set_order_ok (iter : list string -> list string) : Prop :=
  forall s, NoDup s -> Permutation s (iter s).

Definition _try_read_html (w : world) (url : string) : option (list DataFrame) :=
  match http_read_html w url with
  | Ok tables => Some tables
  | Raise _ => None
  end.

(** Truth value of [tables] in [if tables:]. *)
Definition truthy (tables : option (list DataFrame)) : bool :=
  match tables with
  | Some (_ :: _) => true
  | _ => false
  end.

(** [for url in candidates: tables = _try_read_html(url); if tables: break] *)
Fixpoint first_tables (w : world) (tables : option (list DataFrame))
    (candidates : list string) : option (list DataFrame) :=
  match candidates with
  | [] => tables
  | url :: rest =>
      let tables' := _try_read_html w url in
      if truthy tables' then tables' else first_tables w tables' rest
  end.

(** Header test of [fetch_sp500]. *)
Definition exact_header (c : string) : bool :=
  PyStr.mem (PyStr.lower (PyStr.strip c)) ["symbol"; "ticker"; "tickers"].

(** Header test of the two CSV readers. *)
Definition ticker_like (c : string) : bool :=
  PyStr.contains "ticker" (PyStr.lower c) || PyStr.contains "symbol" (PyStr.lower c).

Definition find_column (p : string -> bool) (df : DataFrame)
  : option (string * list string) :=
  find (fun col => p (fst col)) df.

(** First table with a matching column, and that column. *)
Fixpoint find_table (tables : list DataFrame) : option (string * list string) :=
  match tables with
  | [] => None
  | t :: rest =>
      match find_column exact_header t with
      | Some col => Some col
      | None => find_table rest
      end
  end.

Definition wiki_urls : list string :=
  [ "https://en.wikipedia.org/wiki/List_of_S%26P_500_companies";
    "https://en.wikipedia.org/wiki/List_of_S%26P_500_companies?oldformat=true";
    "https://en.wikipedia.org/wiki/List_of_S%26P_500_companies?action=render" ].

Definition datahub_url : string :=
  "https://datahub.io/core/s-and-p-500-companies/r/constituents.csv".

Definition fetch_sp500 (w : world) : res (list string) :=
  let tables := first_tables w None wiki_urls in
  if negb (truthy tables) then
    let attempt :=
      match http_read_csv w datahub_url with
      | Raise e => Raise e
      | Ok df =>
          match find_column exact_header df with
          | None => Raise (RuntimeError "Could not find ticker column in fallback CSV.")
          | Some (_, cells) => Ok (map normalize cells)
          end
      end in
    match attempt with
    | Ok syms => Ok syms
    | Raise _ => Raise (RuntimeError "Failed to fetch S&P 500 list from all sources.")
    end
  else
    match find_table (match tables with Some ts => ts | None => [] end) with
    | None => Raise (RuntimeError "Could not find a constituents table on Wikipedia page.")
    | Some (_, cells) => Ok (map normalize cells)
    end.

Definition read_sp500_csv (w : world) (csv_path : string) : res (list string) :=
  match read_csv w csv_path with
  | Raise e => Raise e
  | Ok df =>
      match find_column ticker_like df with
      | None =>
          Raise (RuntimeError "CSV must contain a 'ticker' or 'symbol' column for S&P 500.")
      | Some (_, cells) => Ok (map normalize cells)
      end
  end.

Definition read_russell3000 (w : world) (csv_path : string) : res (list string) :=
  match read_csv w csv_path with
  | Raise e => Raise e
  | Ok df =>
      match find_column ticker_like df with
      | None => Raise (RuntimeError "CSV must contain a 'ticker' or 'symbol' column.")
      | Some (_, cells) => Ok (map normalize cells)
      end
  end.

(** [cands.add(x)] on the insertion-ordered image of the set. *)
Definition set_add (x : string) (s : list string) : list string :=
  if PyStr.mem x s then s else s ++ [x].

Definition tv_symbol_candidates (g : globals) (w : world) (ticker : string)
  : list (string * string) :=
  let cands := [ticker] in
  let cands :=
    if PyStr.has_char "-" ticker
    then set_add (PyStr.replace "-" "." ticker) cands else cands in
  let cands :=
    if PyStr.has_char "." ticker
    then set_add (PyStr.replace "." "-" ticker) cands else cands in
  flat_map (fun t => map (fun ex => (ex, t)) (EQUITY_EXCHANGES g)) (set_iter w cands).

(** The body of the [try] in [get_tv_rating], as call number [n] of the
    service: it raises whatever [TA_Handler(...).get_analysis()] raises. *)
Definition try_get_analysis (w : world) (n : nat) (exchange symbol interval : string)
  : res (option string) :=
  match ta w n symbol exchange "america" interval with
  | Ok summary => Ok (dict_get summary "RECOMMENDATION")
  | Raise e => Raise e
  end.

(** [try: ... except Exception: return None] *)
Definition get_tv_rating (w : world) (n : nat) (exchange symbol interval : string)
  : option string :=
  match try_get_analysis w n exchange symbol interval with
  | Ok rec => rec
  | Raise _ => None
  end.

(** One pass of [for ex, sym in tv_symbol_candidates(t)] from call number
    [n]: the row appended (if any), the queries issued and the next call
    number.  [None in ("BUY", "STRONG_BUY")] is false and [None is not None]
    is false, so an unavailable rating moves on to the next candidate. *)
Fixpoint probe (w : world) (t tf : string) (cands : list (string * string)) (n : nat)
  : option row * list event * nat :=
  match cands with
  | [] => (None, [], n)
  | (ex, sym) :: rest =>
      match get_tv_rating w n ex sym tf with
      | Some rec =>
          if buy_label rec
          then (Some {| ticker := t; tv_exchange := ex; tv_symbol := sym;
                        rating := rec; timeframe := tf |},
                [EvQuery n ex sym tf], S n)
          else (None, [EvQuery n ex sym tf], S n)
      | None =>
          let '(r, tr, n') := probe w t tf rest (S n) in
          (r, EvQuery n ex sym tf :: tr, n')
      end
  end.

Definition progress_line (label tf : string) (i total : nat) : string :=
  "[" ++ label ++ " " ++ tf ++ "] scanned " ++ PyStr.of_nat i ++ "/"
      ++ PyStr.of_nat total ++ "...".

(** [if i % 25 == 0: print(...)] *)
Definition shown (label tf : string) (total i : nat) : list event :=
  if (i mod 25 =? 0)%nat then [EvPrint (progress_line label tf i total)] else [].

Definition opt_list {A : Type} (o : option A) : list A :=
  match o with
  | Some a => [a]
  | None => []
  end.

(** [for i, t in enumerate(tickers, 1)]: [i] is the position of the head
    of [tickers], [total] is [len(tickers)] of the whole list. *)
Fixpoint scan_tickers (g : globals) (w : world) (label tf : string) (total i : nat)
    (tickers : list string) (n : nat) : list row * list event * nat :=
  match tickers with
  | [] => ([], [], n)
  | t :: rest =>
      let '(r, tr1, n1) := probe w t tf (tv_symbol_candidates g w t) n in
      let '(rows, tr2, n2) := scan_tickers g w label tf total (S i) rest n1 in
      (opt_list r ++ rows,
       tr1 ++ shown label tf total i ++ EvSleep (SLEEP_BETWEEN_CALLS g) :: tr2, n2)
  end.

(** Key of [sort_values(["rating", "ticker"], ascending=[True, True])]. *)
Definition row_leb (a b : row) : bool :=
  match String.compare (rating a) (rating b) with
  | Lt => true
  | Gt => false
  | Eq => String.leb (ticker a) (ticker b)
  end.

Definition out_file_name (label tf : string) : string :=
  "tv_scan_" ++ label ++ "_" ++ PyStr.remove " " tf ++ ".csv".

Definition wrote_line (out_file : string) (len : nat) : string :=
  "Wrote " ++ out_file ++ " with " ++ PyStr.of_nat len
           ++ " tickers rated BUY/STRONG_BUY.".

(** The table written for one timeframe from the collected [rows]. *)
Definition out_table (rows : list row) : list row :=
  match rows with
  | [] => rows
  | _ => sort_by row_leb rows
  end.

Fixpoint scan_universe (g : globals) (w : world) (tickers : list string) (label : string)
    (intervals : list string) (n : nat) : list event * nat :=
  match intervals with
  | [] => ([], n)
  | tf :: more =>
      let '(rows, tr, n1) := scan_tickers g w label tf (List.length tickers) 1 tickers n in
      let out := out_table rows in
      let out_file := out_file_name label tf in
      let '(tr', n2) := scan_universe g w tickers label more n1 in
      (tr ++ EvWrite out_file out :: EvPrint (wrote_line out_file (List.length out)) :: tr', n2)
  end.

(** *** Command line *)

Record args : Type := {
  sp500_csv : option string;
  r3000_csv : option string;
  skip_sp500 : bool;
  only : option string;
  intervals : list string;
  sleep : Q;
  start : Z;
  end_ : option Z
}.

(** Values of [tradingview_ta.Interval]. *)
Definition INTERVAL_4_HOURS : string := "4h".
Definition INTERVAL_1_WEEK : string := "1W".

Definition interval_map : list (string * string) :=
  [("4h", INTERVAL_4_HOURS); ("1w", INTERVAL_1_WEEK)].

(** The loop filling [intervals]; [inl tf] when [tf] is not a key. *)
Fixpoint map_intervals (tfs : list string) : string + list string :=
  match tfs with
  | [] => inr []
  | tf :: rest =>
      match dict_get interval_map tf with
      | None => inl tf
      | Some v =>
          match map_intervals rest with
          | inl bad => inl bad
          | inr vs => inr (v :: vs)
          end
      end
  end.

(** [l[start:stop]] with Python's treatment of negative and large bounds. *)
Definition py_slice {A : Type} (start : Z) (stop : option Z) (l : list A) : list A :=
  let len := Z.of_nat (List.length l) in
  let clamp i := if (i <? 0)%Z then Z.max (i + len) 0 else Z.min i len in
  let lo := clamp start in
  let hi := match stop with Some e => clamp e | None => len end in
  firstn (Z.to_nat (hi - lo)) (skipn (Z.to_nat lo) l).

Definition nonempty (o : option string) : option string :=
  match o with
  | Some EmptyString => None
  | _ => o
  end.

Definition show_end (e : option Z) : string :=
  match e with
  | Some z => PyStr.of_Z z
  | None => "None"
  end.

Definition loaded_line (a : args) (len : nat) (what : string) : string :=
  "Loaded " ++ PyStr.of_nat len ++ what ++ " (slice " ++ PyStr.of_Z (start a) ++ ":"
            ++ show_end (end_ a) ++ ").".

(** [args.only in (None, u)] *)
Definition selected (a : args) (u : string) : bool :=
  match only a with
  | None => true
  | Some o => String.eqb o u
  end.

(** The S&P 500 block of [main], from call number 0. *)
Definition main_sp500 (g : globals) (w : world) (a : args) (tfs : list string)
  : outcome * list event * nat :=
  if selected a "sp500" && negb (skip_sp500 a) then
    let '(loaded, said) :=
      match nonempty (sp500_csv a) with
      | Some path =>
          (read_sp500_csv w path,
           EvPrint ("Loading S&P 500 from " ++ path ++ "...")%string)
      | None =>
          (fetch_sp500 w, EvPrint "Fetching S&P 500 constituents (robust mode)...")
      end in
    match loaded with
    | Raise e => (Uncaught e, [said], 0%nat)
    | Ok sp =>
        let sp := py_slice (start a) (end_ a) sp in
        let '(tr, n) := scan_universe g w sp "sp500" tfs 0 in
        (Done, said :: EvPrint (loaded_line a (List.length sp) " S&P 500 tickers") :: tr, n)
    end
  else (Done, [], 0%nat).

(** The Russell 3000 block of [main], from call number [n]. *)
Definition main_r3000 (g : globals) (w : world) (a : args) (tfs : list string) (n : nat)
  : outcome * list event :=
  if selected a "r3000" then
    match nonempty (r3000_csv a) with
    | None =>
        (Done, [EvPrintErr "Russell 3000 CSV not provided. Skipping Russell 3000. Use --r3000_csv path/to/file.csv"])
    | Some path =>
        match read_russell3000 w path with
        | Raise e => (Uncaught e, [])
        | Ok r3k =>
            let r3k := py_slice (start a) (end_ a) r3k in
            let '(tr, _) := scan_universe g w r3k "russell3000" tfs n in
            (Done, EvPrint (loaded_line a (List.length r3k) " Russell 3000 tickers from CSV") :: tr)
        end
    end
  else (Done, []).

(** The module globals after [SLEEP_BETWEEN_CALLS = float(args.sleep)]. *)
Definition run_globals (a : args) : globals :=
  {| SLEEP_BETWEEN_CALLS := sleep a;
     HTTP_TIMEOUT := HTTP_TIMEOUT module_globals;
     EQUITY_EXCHANGES := EQUITY_EXCHANGES module_globals |}.

Definition main (w : world) (a : args) : outcome * list event :=
  match map_intervals (intervals a) with
  | inl tf =>
      (Exit 1,
       [EvPrintErr
          ("Unsupported interval: " ++ tf ++ ". Choices are: ['4h', '1w']")%string])
  | inr tfs =>
      let g := run_globals a in
      match main_sp500 g w a tfs with
      | (Done, tr1, n) =>
          let '(o, tr2) := main_r3000 g w a tfs n in (o, tr1 ++ tr2)
      | (o, tr1, _) => (o, tr1)
      end
  end.

(** *** Vocabulary for the properties of the scanner *)

(** The order of [row_leb] spelled out: by rating label, then by ticker,
    both ascending in the order of Python's [str]. *)
Definition row_le (a b : row) : Prop :=
  String.compare (rating a) (rating b) = Lt \/
  (rating a = rating b /\ String.leb (ticker a) (ticker b) = true).

(** The queries for the candidates [cands], in order, from call [n]. *)
Fixpoint queries (n : nat) (tf : string) (cands : list (string * string)) : list event :=
  match cands with
  | [] => []
  | (ex, sym) :: rest => EvQuery n ex sym tf :: queries (S n) tf rest
  end.

(** Every candidate of [cands], asked in order from call [n], is
    unavailable. *)
Fixpoint unavailable_from (w : world) (tf : string) (cands : list (string * string))
    (n : nat) : bool :=
  match cands with
  | [] => true
  | (ex, sym) :: rest =>
      match get_tv_rating w n ex sym tf with
      | None => unavailable_from w tf rest (S n)
      | Some _ => false
      end
  end.

(** [paced d pending tr]: in [tr] no query follows another query (or the
    pending one) without a sleep of [d] seconds in between. *)
Fixpoint paced (d : Q) (pending : bool) (tr : list event) : bool :=
  match tr with
  | [] => true
  | EvQuery _ _ _ _ :: tr' => negb pending && paced d true tr'
  | EvSleep s :: tr' => paced d (if Qeq_bool s d then false else pending) tr'
  | _ :: tr' => paced d pending tr'
  end.

(** A table was written for the universe [label]. *)
Definition scanned (label : string) (tr : list event) : Prop :=
  exists tf table, In (EvWrite (out_file_name label tf) table) tr.

(** Where [fetch_sp500] can take its ticker column from. *)
Definition sp500_web_column (w : world) (cells : list string) : Prop :=
  (exists url tables t c,
      In url wiki_urls /\ http_read_html w url = Ok tables /\
      In t tables /\ In (c, cells) t /\ exact_header c = true) \/
  (exists df c,
      http_read_csv w datahub_url = Ok df /\ In (c, cells) df /\ exact_header c = true).

(** Where a CSV reader takes its ticker column from. *)
Definition csv_column (w : world) (csv_path : string) (cells : list string) : Prop :=
  exists df c,
    read_csv w csv_path = Ok df /\ In (c, cells) df /\ ticker_like c = true.

(** *** Vocabulary for further properties *)

(** Names of the files written, oldest first. *)
Fixpoint written_files (tr : list event) : list string :=
  match tr with
  | [] => []
  | EvWrite f _ :: tr' => f :: written_files tr'
  | _ :: tr' => written_files tr'
  end.

Fixpoint count_queries (tr : list event) : nat :=
  match tr with
  | [] => 0
  | EvQuery _ _ _ _ :: tr' => S (count_queries tr')
  | _ :: tr' => count_queries tr'
  end.

Fixpoint count_sleeps (tr : list event) : nat :=
  match tr with
  | [] => 0
  | EvSleep _ :: tr' => S (count_sleeps tr')
  | _ :: tr' => count_sleeps tr'
  end.

Fixpoint count_prints (tr : list event) : nat :=
  match tr with
  | [] => 0
  | EvPrint _ :: tr' => S (count_prints tr')
  | _ :: tr' => count_prints tr'
  end.

(** The answers of the service do not depend on when it is asked. *)
Definition stationary (w : world) : Prop :=
  forall n m symbol exchange screener interval,
    ta w n symbol exchange screener interval = ta w m symbol exchange screener interval.



(** [sym] is one of the spellings tried for [ticker]. *)
Definition spelling (ticker sym : string) : Prop :=
  sym = ticker \/
  (PyStr.has_char "-" ticker = true /\ sym = PyStr.replace "-" "." ticker) \/
  (PyStr.has_char "." ticker = true /\ sym = PyStr.replace "." "-" ticker).

(** The table written for the timeframe [tf] when the scan of [tickers]
    reaches it at call number [n]. *)
Definition table_of (g : globals) (w : world) (tickers : list string)
    (label tf : string) (n : nat) : list row :=
  out_table (fst (fst (scan_tickers g w label tf (List.length tickers) 1 tickers n))).

(** No page of [wiki_urls] yields a table. *)
Definition wiki_unusable (w : world) : Prop :=
  forall url, In url wiki_urls ->
              match http_read_html w url with
              | Ok (_ :: _) => False
              | _ => True
              end.

End Equity.

(** ** top_500_4h.py *)

Module Crypto.

(** One object of the CoinGecko markets response; [market_cap] is [None]
    for JSON [null] (a NaN cell in the data frame). *)
Record coin : Type := {
  coin_symbol : string;
  coin_name : string;
  coin_market_cap : option Q
}.

Record row : Type := {
  name : string;
  symbol : string;
  tv_exchange : string;
  tv_symbol : string;
  market_cap : option Q;
  rating_4h : string
}.

Inductive event : Type :=
| EvQuery (n : nat) (exchange symbol interval : string)
| EvSleep (seconds : Q)
| EvWrite (out_file : string) (table : list row)
| EvPrintHead (table : list row).

(** [markets page]: [requests.get(.../coins/markets, page=page).json()] *)
Record world : Type := {
  ta : ta_service;
  markets : nat -> res (list coin)
}.

Definition INTERVAL_4_HOURS : string := "4h".

(** The two pages of 250, concatenated. *)
Definition cg (w : world) : res (list coin) :=
  match markets w 1 with
  | Raise e => Raise e
  | Ok page1 =>
      match markets w 2 with
      | Raise e => Raise e
      | Ok page2 => Ok (page1 ++ page2)
      end
  end.

(** The string [s] of [tv_symbols]. *)
Definition tv_base (symbol : string) : string :=
  PyStr.remove "-" (PyStr.remove "." (PyStr.upper symbol)).

Definition tv_symbols (symbol : string) : list (string * string) :=
  let s := tv_base symbol in
  [("BINANCE", (s ++ "USDT")%string);
   ("BYBIT", (s ++ "USDT")%string);
   ("COINBASE", (s ++ "USD")%string);
   ("KRAKEN", (s ++ "USD")%string)].

(** [r.get("RECOMMENDATION", "")] *)
Definition recommendation (r : summary) : string :=
  match dict_get r "RECOMMENDATION" with
  | Some rec => rec
  | None => ""
  end.

(** [for ex, tvsym in tv_symbols(sym)] for the coin [c], from call [n]. *)
Fixpoint probe (w : world) (c : coin) (cands : list (string * string)) (n : nat)
  : option row * list event * nat :=
  match cands with
  | [] => (None, [], n)
  | (ex, tvsym) :: rest =>
      match ta w n tvsym ex "crypto" INTERVAL_4_HOURS with
      | Ok r =>
          let rec := recommendation r in
          ((if buy_label rec
            then Some {| name := coin_name c; symbol := PyStr.upper (coin_symbol c);
                         tv_exchange := ex; tv_symbol := tvsym;
                         market_cap := coin_market_cap c; rating_4h := rec |}
            else None),
           [EvQuery n ex tvsym INTERVAL_4_HOURS], S n)
      | Raise _ =>
          let '(r, tr, n') := probe w c rest (S n) in
          (r, EvQuery n ex tvsym INTERVAL_4_HOURS :: EvSleep (2 # 10) :: tr, n')
      end
  end.

(** [for c in cg] *)
Fixpoint scan_coins (w : world) (coins : list coin) (n : nat)
  : list row * list event * nat :=
  match coins with
  | [] => ([], [], n)
  | c :: rest =>
      let '(r, tr1, n1) := probe w c (tv_symbols (coin_symbol c)) n in
      let '(rows, tr2, n2) := scan_coins w rest n1 in
      (match r with Some x => x :: rows | None => rows end, tr1 ++ tr2, n2)
  end.

(** [a >= b] on market caps, a missing cap below every number:
    [sort_values(ascending=False)] puts NaN last. *)
Definition cap_geb (a b : option Q) : bool :=
  match a, b with
  | _, None => true
  | None, Some _ => false
  | Some x, Some y => Qle_bool y x
  end.

Definition row_geb (a b : row) : bool := cap_geb (market_cap a) (market_cap b).

(** The whole script.  [pd.DataFrame([])] has no column, so sorting it by
    "market_cap" raises [KeyError]. *)
Definition top_500_4h (w : world) : outcome * list event :=
  match cg w with
  | Raise e => (Uncaught e, [])
  | Ok coins =>
      let '(rows, tr, _) := scan_coins w coins 0 in
      match rows with
      | [] => (Uncaught (KeyError "market_cap"), tr)
      | _ =>
          let df := sort_by row_geb rows in
          (Done, tr ++ [EvWrite "tv_4h_buy_top500.csv" df; EvPrintHead (firstn 20 df)])
      end
  end.

(** *** Vocabulary for the properties of the script *)

Definition cap_ge (a b : option Q) : Prop :=
  match a, b with
  | _, None => True
  | None, Some _ => False
  | Some x, Some y => (y <= x)%Q
  end.

(** Descending by market cap, rows without one last. *)
Definition row_ge (a b : row) : Prop := cap_ge (market_cap a) (market_cap b).

Fixpoint paced (d : Q) (pending : bool) (tr : list event) : bool :=
  match tr with
  | [] => true
  | EvQuery _ _ _ _ :: tr' => negb pending && paced d true tr'
  | EvSleep s :: tr' => paced d (if Qeq_bool s d then false else pending) tr'
  | _ :: tr' => paced d pending tr'
  end.

(** *** Vocabulary for further properties *)

(** Every candidate of [cands], asked in order from call [n], fails. *)
Fixpoint all_fail (w : world) (cands : list (string * string)) (n : nat) : bool :=
  match cands with
  | [] => true
  | (ex, tvsym) :: rest =>
      match ta w n tvsym ex "crypto" INTERVAL_4_HOURS with
      | Raise _ => all_fail w rest (S n)
      | Ok _ => false
      end
  end.

(** The trace of failed attempts on [cands] from call [n]. *)
Fixpoint failed_queries (n : nat) (cands : list (string * string)) : list event :=
  match cands with
  | [] => []
  | (ex, tvsym) :: rest =>
      EvQuery n ex tvsym INTERVAL_4_HOURS :: EvSleep (2 # 10)
        :: failed_queries (S n) rest
  end.

(** The service never answers with a buy label. *)
Definition never_buy (w : world) : Prop :=
  forall n symbol exchange,
    match ta w n symbol exchange "crypto" INTERVAL_4_HOURS with
    | Ok r => buy_label (recommendation r) = false
    | Raise _ => True
    end.

Fixpoint count_queries (tr : list event) : nat :=
  match tr with
  | [] => 0
  | EvQuery _ _ _ _ :: tr' => S (count_queries tr')
  | _ :: tr' => count_queries tr'
  end.

End Crypto.

(** ** Sample environments

    Small concrete worlds on which the scripts are run below. *)

Module Sample.

Definition offline {A : Type} : string -> res A :=
  fun _ => Raise (ExternalError "offline").

Definition answers (lbl : string) : res summary :=
  Ok [("RECOMMENDATION", lbl); ("BUY", "12"); ("SELL", "3"); ("NEUTRAL", "11")].

(** The service never answers. *)
Definition all_down : ta_service :=
  fun _ _ _ _ _ => Raise (ExternalError "timeout").

(** NASDAQ is unreachable, NYSE rates SELL, every other venue rates BUY. *)
Definition nyse_sells : ta_service :=
  fun _ _ exchange _ _ =>
    if String.eqb exchange "NASDAQ" then Raise (ExternalError "timeout")
    else if String.eqb exchange "NYSE" then answers "SELL"
    else answers "BUY".

(** Only "MSFT" is known to the service, and rated BUY. *)
Definition only_msft : ta_service :=
  fun _ symbol _ _ _ =>
    if String.eqb symbol "MSFT" then answers "BUY" else Raise (ExternalError "not found").

(** Every venue rates BUY, except that "MSFT" is rated STRONG_BUY. *)
Definition all_buy : ta_service :=
  fun _ symbol _ _ _ =>
    if String.eqb symbol "MSFT" then answers "STRONG_BUY" else answers "BUY".

Definition files (path : string) : res DataFrame :=
  if String.eqb path "sp_no_ticker.csv"
  then Ok [("Name", ["Apple"; "Microsoft"]); ("Sector", ["Tech"; "Tech"])]
  else if String.eqb path "sp_twice.csv"
  then Ok [("Name", ["Apple"; "Apple"]); ("Symbol", ["AAPL"; "AAPL"])]
  else if String.eqb path "sp.csv"
  then Ok [("Symbol", ["MSFT"; "AAPL"])]
  else if String.eqb path "r3k.csv"
  then Ok [("Ticker", ["AAPL"; "MSFT"])]
  else if String.eqb path "r3k_no_ticker.csv"
  then Ok [("Company", ["Apple"])]
  else Raise (ExternalError "No such file or directory").

(** Sets are iterated in insertion order. *)
Definition equity_world (service : ta_service) : Equity.world :=
  {| Equity.ta := service;
     Equity.http_read_html := offline;
     Equity.http_read_csv := offline;
     Equity.read_csv := files;
     Equity.set_iter := fun s => s |}.

(** Sets are iterated in reverse insertion order. *)
Definition equity_world_rev (service : ta_service) : Equity.world :=
  {| Equity.ta := service;
     Equity.http_read_html := offline;
     Equity.http_read_csv := offline;
     Equity.read_csv := files;
     Equity.set_iter := @rev string |}.

Definition two_venues : Equity.globals :=
  {| Equity.SLEEP_BETWEEN_CALLS := 15 # 100;
     Equity.HTTP_TIMEOUT := 20;
     Equity.EQUITY_EXCHANGES := ["NASDAQ"; "NYSE"] |}.

Definition both_universes (sp r3k : string) : Equity.args :=
  {| Equity.sp500_csv := Some sp;
     Equity.r3000_csv := Some r3k;
     Equity.skip_sp500 := false;
     Equity.only := None;
     Equity.intervals := ["4h"];
     Equity.sleep := 15 # 100;
     Equity.start := 0;
     Equity.end_ := None |}.

Definition btc : Crypto.coin :=
  {| Crypto.coin_symbol := "btc"; Crypto.coin_name := "Bitcoin";
     Crypto.coin_market_cap := Some (1300 # 1) |}.

Definition eth : Crypto.coin :=
  {| Crypto.coin_symbol := "eth"; Crypto.coin_name := "Ethereum";
     Crypto.coin_market_cap := Some (400 # 1) |}.

Definition aapl_buy : Equity.row :=
  {| Equity.ticker := "AAPL"; Equity.tv_exchange := "NASDAQ";
     Equity.tv_symbol := "AAPL"; Equity.rating := "BUY"; Equity.timeframe := "4h" |}.

Definition msft_strong_buy : Equity.row :=
  {| Equity.ticker := "MSFT"; Equity.tv_exchange := "NASDAQ";
     Equity.tv_symbol := "MSFT"; Equity.rating := "STRONG_BUY";
     Equity.timeframe := "4h" |}.

Definition btc_buy : Crypto.row :=
  {| Crypto.name := "Bitcoin"; Crypto.symbol := "BTC";
     Crypto.tv_exchange := "BINANCE"; Crypto.tv_symbol := "BTCUSDT";
     Crypto.market_cap := Some (1300 # 1); Crypto.rating_4h := "BUY" |}.

Definition eth_buy : Crypto.row :=
  {| Crypto.name := "Ethereum"; Crypto.symbol := "ETH";
     Crypto.tv_exchange := "BINANCE"; Crypto.tv_symbol := "ETHUSDT";
     Crypto.market_cap := Some (400 # 1); Crypto.rating_4h := "BUY" |}.

Definition crypto_world (service : ta_service) : Crypto.world :=
  {| Crypto.ta := service;
     Crypto.markets := fun page => if Nat.eqb page 1 then Ok [eth] else Ok [btc] |}.

(** The service answers, but its summary has no RECOMMENDATION entry. *)
Definition no_verdict : ta_service :=
  fun _ _ _ _ _ => Ok [("BUY", "12"); ("SELL", "3")].

(** NASDAQ answers without a RECOMMENDATION entry, the others rate BUY. *)
Definition nasdaq_no_verdict : ta_service :=
  fun _ _ exchange _ _ =>
    if String.eqb exchange "NASDAQ" then Ok [("BUY", "12")] else answers "BUY".

(** Binance is unreachable, Bybit rates SELL, the others rate BUY. *)
Definition bybit_sells : ta_service :=
  fun _ _ exchange _ _ =>
    if String.eqb exchange "BINANCE" then Raise (ExternalError "timeout")
    else if String.eqb exchange "BYBIT" then answers "SELL"
    else answers "BUY".

(** The first Wikipedia page parses into a table without ticker column;
    the fallback CSV is fine. *)
Definition wiki_without_symbols (service : ta_service) : Equity.world :=
  {| Equity.ta := service;
     Equity.http_read_html :=
       fun url =>
         if String.eqb url "https://en.wikipedia.org/wiki/List_of_S%26P_500_companies"
         then Ok [[("Company", ["Apple"]); ("Sector", ["Tech"])]]
         else Raise (ExternalError "403");
     Equity.http_read_csv := fun _ => Ok [("Symbol", ["AAPL"; "BRK.B"])];
     Equity.read_csv := files;
     Equity.set_iter := fun s => s |}.

(** "BRK-B" is rated SELL and any other symbol BUY, on every venue. *)
Definition dash_sells_dot_buys : ta_service :=
  fun _ symbol _ _ _ => if String.eqb symbol "BRK-B" then answers "SELL" else answers "BUY".

(** Every venue rates SELL. *)
Definition all_sell : ta_service := fun _ _ _ _ _ => answers "SELL".

(** The first Wikipedia page parses into a table without ticker column;
    the second page and the fallback CSV both have one. *)
Definition only_second_page_has_symbols (service : ta_service) : Equity.world :=
  {| Equity.ta := service;
     Equity.http_read_html :=
       fun url =>
         if String.eqb url "https://en.wikipedia.org/wiki/List_of_S%26P_500_companies"
         then Ok [[("Company", ["Apple"]); ("Sector", ["Tech"])]]
         else if String.eqb url
                   "https://en.wikipedia.org/wiki/List_of_S%26P_500_companies?oldformat=true"
         then Ok [[("Symbol", ["AAPL"; "MSFT"])]]
         else Raise (ExternalError "403");
     Equity.http_read_csv := fun _ => Ok [("Symbol", ["AAPL"; "BRK.B"])];
     Equity.read_csv := files;
     Equity.set_iter := fun s => s |}.

(** Wikipedia is unreachable; the fallback CSV is fine. *)
Definition fallback_only (service : ta_service) : Equity.world :=
  {| Equity.ta := service;
     Equity.http_read_html := offline;
     Equity.http_read_csv := fun _ => Ok [("Name", ["Apple"]); ("Symbol", ["AAPL"; "BRK.B"])];
     Equity.read_csv := files;
     Equity.set_iter := fun s => s |}.

Definition with_intervals (tfs : list string) (a : Equity.args) : Equity.args :=
  {| Equity.sp500_csv := Equity.sp500_csv a;
     Equity.r3000_csv := Equity.r3000_csv a;
     Equity.skip_sp500 := Equity.skip_sp500 a;
     Equity.only := Equity.only a;
     Equity.intervals := tfs;
     Equity.sleep := 1 # 2;
     Equity.start := Equity.start a;
     Equity.end_ := Equity.end_ a |}.

End Sample.

(** * Properties *)

(** Membership in a list given in full. *)
Ltac in_list := repeat first [left; reflexivity | right].

(** ** Ordering of strings *)

Lemma ascii_compare_refl (a : ascii) : Ascii.compare a a = Eq.
Proof. unfold Ascii.compare. apply N.compare_refl. Qed.

Lemma ascii_compare_lt_trans (a b c : ascii) :
  Ascii.compare a b = Lt -> Ascii.compare b c = Lt -> Ascii.compare a c = Lt.
Proof.
  unfold Ascii.compare. rewrite !N.compare_lt_iff. apply N.lt_trans.
Qed.

Lemma string_compare_refl (s : string) : String.compare s s = Eq.
Proof.
  induction s as [|c s IH]; simpl; [reflexivity|].
  now rewrite ascii_compare_refl.
Qed.

Lemma string_compare_eq (s t : string) : String.compare s t = Eq -> s = t.
Proof. apply String.compare_eq_iff. Qed.

Lemma string_compare_lt_trans (s t u : string) :
  String.compare s t = Lt -> String.compare t u = Lt -> String.compare s u = Lt.
Proof.
  revert t u. induction s as [|a s IH]; intros [|b t] [|c u]; simpl;
    try discriminate; try reflexivity.
  destruct (Ascii.compare a b) eqn:Hab; try discriminate;
    destruct (Ascii.compare b c) eqn:Hbc; try discriminate; intros H1 H2.
  - apply Ascii.compare_eq_iff in Hab, Hbc. subst.
    rewrite ascii_compare_refl. eauto.
  - apply Ascii.compare_eq_iff in Hab. subst. now rewrite Hbc.
  - apply Ascii.compare_eq_iff in Hbc. subst. now rewrite Hab.
  - now rewrite (ascii_compare_lt_trans _ _ _ Hab Hbc).
Qed.

Lemma string_compare_gt_lt (s t : string) :
  String.compare s t = Gt -> String.compare t s = Lt.
Proof.
  intros H. rewrite String.compare_antisym, H. reflexivity.
Qed.

Lemma string_leb_trans (s t u : string) :
  String.leb s t = true -> String.leb t u = true -> String.leb s u = true.
Proof.
  unfold String.leb.
  destruct (String.compare s t) eqn:Hst; try discriminate;
    destruct (String.compare t u) eqn:Htu; try discriminate; intros _ _.
  - apply string_compare_eq in Hst, Htu. subst. now rewrite string_compare_refl.
  - apply string_compare_eq in Hst. subst. now rewrite Htu.
  - apply string_compare_eq in Htu. subst. now rewrite Hst.
  - now rewrite (string_compare_lt_trans _ _ _ Hst Htu).
Qed.

(** ** Insertion sort *)

Section Sorting.

Context {A : Type} (le : A -> A -> bool).
Hypothesis le_total : forall a b, le a b = true \/ le b a = true.
Hypothesis le_trans : forall a b c, le a b = true -> le b c = true -> le a c = true.

Let leP (a b : A) : Prop := le a b = true.

Lemma insert_by_perm (x : A) (l : list A) : Permutation (x :: l) (insert_by le x l).
Proof.
  induction l as [|y l IH]; simpl; [reflexivity|].
  destruct (le x y); [reflexivity|].
  rewrite perm_swap. now constructor.
Qed.

Lemma sort_by_perm (l : list A) : Permutation l (sort_by le l).
Proof.
  induction l as [|x l IH]; simpl; [constructor|].
  rewrite <- insert_by_perm. now constructor.
Qed.

Lemma insert_by_sorted (x : A) (l : list A) :
  StronglySorted leP l -> StronglySorted leP (insert_by le x l).
Proof.
  induction 1 as [|y l Hs IH Hy]; simpl.
  - repeat constructor.
  - destruct (le x y) eqn:Hxy.
    + constructor; [now constructor|].
      constructor; [exact Hxy|].
      eapply Forall_impl; [|exact Hy]. intros z Hz. eapply le_trans; eassumption.
    + constructor; [exact IH|].
      eapply Permutation_Forall; [apply insert_by_perm|].
      constructor; [|exact Hy].
      destruct (le_total x y) as [H|H]; [congruence|exact H].
Qed.

Lemma sort_by_sorted (l : list A) : StronglySorted leP (sort_by le l).
Proof.
  induction l as [|x l IH]; simpl; [constructor|].
  now apply insert_by_sorted.
Qed.

End Sorting.

(** ** The candidate loop of the equity scanner *)

Import Equity.

Lemma queries_app (n : nat) (tf : string) (l1 l2 : list (string * string)) :
  queries n tf (l1 ++ l2) = queries n tf l1 ++ queries (n + List.length l1) tf l2.
Proof.
  revert n. induction l1 as [|[e s] l1 IH]; intros n; simpl.
  - now rewrite Nat.add_0_r.
  - rewrite IH. do 3 f_equal. lia.
Qed.

Lemma probe_unavailable (w : world) (t tf : string) (cands : list (string * string)) :
  forall n, unavailable_from w tf cands n = true ->
            probe w t tf cands n = (None, queries n tf cands, n + List.length cands).
Proof.
  induction cands as [|[e s] cands IH]; intros n H; simpl in *.
  - now rewrite Nat.add_0_r.
  - destruct (get_tv_rating w n e s tf); [discriminate|].
    rewrite (IH _ H). now rewrite Nat.add_succ_r.
Qed.

Lemma probe_first_answer (w : world) (t tf : string) (pre post : list (string * string))
    (ex sym lbl : string) :
  forall n,
    unavailable_from w tf pre n = true ->
    get_tv_rating w (n + List.length pre) ex sym tf = Some lbl ->
    probe w t tf (pre ++ (ex, sym) :: post) n =
      ((if buy_label lbl
        then Some {| ticker := t; tv_exchange := ex; tv_symbol := sym;
                     rating := lbl; timeframe := tf |}
        else None),
       queries n tf (pre ++ [(ex, sym)]), S (n + List.length pre)).
Proof.
  induction pre as [|[e s] pre IH]; intros n Hpre Hc; simpl in *.
  - rewrite Nat.add_0_r in Hc. rewrite Hc, Nat.add_0_r.
    now destruct (buy_label lbl).
  - destruct (get_tv_rating w n e s tf); [discriminate|].
    rewrite (IH (S n) Hpre); [now rewrite Nat.add_succ_r|].
    now rewrite Nat.add_succ_r in Hc.
Qed.

Lemma probe_query_ge (w : world) (t tf : string) (cands : list (string * string)) :
  forall n r tr n' k e s tf',
    probe w t tf cands n = (r, tr, n') -> In (EvQuery k e s tf') tr -> n <= k.
Proof.
  induction cands as [|[ex sym] cands IH]; intros n r tr n' k e s tf' H Hin; simpl in H.
  - inversion H; subst. destruct Hin.
  - destruct (get_tv_rating w n ex sym tf) as [lbl|].
    + destruct (buy_label lbl); inversion H; subst;
        destruct Hin as [Hq|[]]; inversion Hq; lia.
    + destruct (probe w t tf cands (S n)) as [[r0 tr0] n0] eqn:E.
      inversion H; subst. destruct Hin as [Hq|Hin].
      * inversion Hq; lia.
      * apply (IH _ _ _ _ _ _ _ _ E) in Hin. lia.
Qed.

Lemma probe_earlier_unavailable (w : world) (t tf : string) (cands : list (string * string)) :
  forall n r tr n' k e s j e' s',
    probe w t tf cands n = (r, tr, n') ->
    In (EvQuery k e s tf) tr -> In (EvQuery j e' s' tf) tr -> j < k ->
    get_tv_rating w j e' s' tf = None.
Proof.
  induction cands as [|[ex sym] cands IH]; intros n r tr n' k e s j e' s' H Hk Hj Hlt;
    simpl in H.
  - inversion H; subst. destruct Hk.
  - destruct (get_tv_rating w n ex sym tf) as [lbl|] eqn:Hr.
    + destruct (buy_label lbl); inversion H; subst;
        destruct Hk as [Hk|[]]; destruct Hj as [Hj|[]];
        inversion Hk; inversion Hj; lia.
    + destruct (probe w t tf cands (S n)) as [[r0 tr0] n0] eqn:E.
      inversion H; subst. destruct Hj as [Hj|Hj].
      * inversion Hj; subst. exact Hr.
      * destruct Hk as [Hk|Hk].
        -- inversion Hk; subst.
           apply (probe_query_ge _ _ _ _ _ _ _ _ _ _ _ _ E) in Hj. lia.
        -- eapply IH; eassumption.
Qed.

(** What a row appended by the candidate loop looks like. *)
Lemma probe_row (w : world) (t tf : string) (cands : list (string * string)) :
  forall n r tr n',
    probe w t tf cands n = (Some r, tr, n') ->
    ticker r = t /\ timeframe r = tf /\ In (tv_exchange r, tv_symbol r) cands /\
    buy_label (rating r) = true /\
    exists k, n <= k < n' /\
              get_tv_rating w k (tv_exchange r) (tv_symbol r) tf = Some (rating r).
Proof.
  induction cands as [|[ex sym] cands IH]; intros n r tr n' H; simpl in H.
  - discriminate.
  - destruct (get_tv_rating w n ex sym tf) as [lbl|] eqn:Hr.
    + destruct (buy_label lbl) eqn:Hb; inversion H; subst; simpl.
      split; [reflexivity|]. split; [reflexivity|]. split; [now left|].
      split; [exact Hb|]. exists n. split; [lia|exact Hr].
    + destruct (probe w t tf cands (S n)) as [[r0 tr0] n0] eqn:E.
      inversion H; subst.
      destruct (IH _ _ _ _ E) as (H1 & H2 & H3 & H4 & k & Hk & H5).
      split; [exact H1|]. split; [exact H2|]. split; [now right|].
      split; [exact H4|]. exists k. split; [lia|exact H5].
Qed.

Lemma buy_label_spec (r : string) :
  buy_label r = true <-> r = "BUY" \/ r = "STRONG_BUY".
Proof.
  unfold buy_label, PyStr.mem. simpl. rewrite !orb_true_iff, !String.eqb_eq.
  intuition discriminate.
Qed.

Lemma probe_trace_queries (w : world) (t tf : string) (cands : list (string * string)) :
  forall n r tr n' ev,
    probe w t tf cands n = (r, tr, n') -> In ev tr ->
    exists k e s, ev = EvQuery k e s tf /\ In (e, s) cands.
Proof.
  induction cands as [|[ex sym] cands IH]; intros n r tr n' ev H Hin; simpl in H.
  - inversion H; subst. destruct Hin.
  - destruct (get_tv_rating w n ex sym tf) as [lbl|].
    + destruct (buy_label lbl); inversion H; subst;
        destruct Hin as [<-|[]]; exists n, ex, sym; split; auto; now left.
    + destruct (probe w t tf cands (S n)) as [[r0 tr0] n0] eqn:E.
      inversion H; subst. destruct Hin as [<-|Hin].
      * exists n, ex, sym. split; auto. now left.
      * destruct (IH _ _ _ _ _ E Hin) as (k & e & s & -> & Hc).
        exists k, e, s. split; auto. now right.
Qed.

(** ** The ticker loop *)

Lemma scan_tickers_cons (g : globals) (w : world) (label tf : string) (total i : nat)
    (t : string) (rest : list string) (n : nat) r tr1 n1 :
  probe w t tf (tv_symbol_candidates g w t) n = (r, tr1, n1) ->
  scan_tickers g w label tf total i (t :: rest) n =
    (let '(rows, tr2, n2) := scan_tickers g w label tf total (S i) rest n1 in
     (opt_list r ++ rows,
      tr1 ++ shown label tf total i ++ EvSleep (SLEEP_BETWEEN_CALLS g) :: tr2, n2)).
Proof. intros H. simpl. now rewrite H. Qed.

(** Every collected row was appended by the candidate loop of one ticker. *)
Lemma scan_tickers_rows (g : globals) (w : world) (label tf : string) (total : nat)
    (tickers : list string) :
  forall i n rows tr n' r,
    scan_tickers g w label tf total i tickers n = (rows, tr, n') -> In r rows ->
    exists t m tr1 m',
      In t tickers /\ probe w t tf (tv_symbol_candidates g w t) m = (Some r, tr1, m').
Proof.
  induction tickers as [|t rest IH]; intros i n rows tr n' r H Hin; simpl in H.
  - inversion H; subst. destruct Hin.
  - destruct (probe w t tf (tv_symbol_candidates g w t) n) as [[r1 tr1] n1] eqn:Ep.
    destruct (scan_tickers g w label tf total (S i) rest n1) as [[rows2 tr2] n2] eqn:Es.
    inversion H; subst. apply in_app_or in Hin. destruct Hin as [Hin|Hin].
    + destruct r1 as [r1|]; simpl in Hin; [|destruct Hin].
      destruct Hin as [<-|[]]. exists t, n, tr1, n1. split; [now left|exact Ep].
    + destruct (IH _ _ _ _ _ _ Es Hin) as (t' & m & tr' & m' & Ht & Hp).
      exists t', m, tr', m'. split; [now right|exact Hp].
Qed.

(** The ticker loop prints, sleeps and queries; it writes no file. *)
Lemma scan_tickers_trace (g : globals) (w : world) (label tf : string) (total : nat)
    (tickers : list string) :
  forall i n rows tr n' ev,
    scan_tickers g w label tf total i tickers n = (rows, tr, n') -> In ev tr ->
    (exists k e s t, ev = EvQuery k e s tf /\ In t tickers /\
                     In (e, s) (tv_symbol_candidates g w t)) \/
    (exists line, ev = EvPrint line) \/
    ev = EvSleep (SLEEP_BETWEEN_CALLS g).
Proof.
  induction tickers as [|t rest IH]; intros i n rows tr n' ev H Hin; simpl in H.
  - inversion H; subst. destruct Hin.
  - destruct (probe w t tf (tv_symbol_candidates g w t) n) as [[r1 tr1] n1] eqn:Ep.
    destruct (scan_tickers g w label tf total (S i) rest n1) as [[rows2 tr2] n2] eqn:Es.
    inversion H; subst. clear H.
    apply in_app_or in Hin. destruct Hin as [Hin|Hin].
    { destruct (probe_trace_queries _ _ _ _ _ _ _ _ _ Ep Hin) as (k & e & s & -> & Hc).
      left. exists k, e, s, t. repeat split; auto. now left. }
    apply in_app_or in Hin. destruct Hin as [Hin|[<-|Hin]].
    + right; left. unfold shown in Hin.
      destruct (i mod 25 =? 0); [|destruct Hin]. destruct Hin as [<-|[]]. eauto.
    + now right; right.
    + destruct (IH _ _ _ _ _ _ Es Hin) as [(k & e & s & t' & -> & Ht & Hc)|[H|H]].
      * left. exists k, e, s, t'. repeat split; auto. now right.
      * right; now left.
      * right; now right.
Qed.

Lemma out_table_perm (rows : list row) : Permutation rows (out_table rows).
Proof.
  destruct rows as [|r rows]; [constructor|]. unfold out_table. apply sort_by_perm.
Qed.

(** Every file written by [scan_universe] is the table of one timeframe. *)
Lemma scan_universe_written (g : globals) (w : world) (tickers : list string)
    (label : string) (intervals : list string) :
  forall n f table,
    In (EvWrite f table) (fst (scan_universe g w tickers label intervals n)) ->
    exists tf m,
      In tf intervals /\ f = out_file_name label tf /\
      table = out_table
                (fst (fst (scan_tickers g w label tf (List.length tickers) 1 tickers m))).
Proof.
  induction intervals as [|tf more IH]; intros n f table Hin; simpl in Hin.
  - destruct Hin.
  - destruct (scan_tickers g w label tf (List.length tickers) 1 tickers n)
      as [[rows tr] n1] eqn:Es.
    destruct (scan_universe g w tickers label more n1) as [tr' n2] eqn:Eu.
    simpl in Hin. apply in_app_or in Hin. destruct Hin as [Hin|[Hin|[Hin|Hin]]].
    + destruct (scan_tickers_trace _ _ _ _ _ _ _ _ _ _ _ _ Es Hin)
        as [(k & e & s & t & Hev & _)|[(line & Hev)|Hev]]; discriminate.
    + inversion Hin; subst. exists tf, n. rewrite Es. repeat split; auto. now left.
    + discriminate.
    + specialize (IH n1 f table). rewrite Eu in IH.
      destruct (IH Hin) as (tf' & m & H1 & H2 & H3).
      exists tf', m. repeat split; auto. now right.
Qed.

Lemma scan_universe_writes (g : globals) (w : world) (tickers : list string)
    (label : string) (intervals : list string) :
  forall n tf, In tf intervals ->
    exists table,
      In (EvWrite (out_file_name label tf) table)
         (fst (scan_universe g w tickers label intervals n)).
Proof.
  induction intervals as [|tf0 more IH]; intros n tf Hin; [destruct Hin|].
  simpl.
  destruct (scan_tickers g w label tf0 (List.length tickers) 1 tickers n)
    as [[rows tr] n1].
  specialize (IH n1 tf).
  destruct (scan_universe g w tickers label more n1) as [tr' n2].
  simpl in *. destruct Hin as [<-|Hin].
  - exists (out_table rows). apply in_or_app. right. now left.
  - destruct (IH Hin) as [table Ht]. exists table.
    apply in_or_app. right. right. now right.
Qed.

(** ** Claims about the candidate loop *)

(** C6.  Probing of one identifier stops at the first candidate that gets an
    answer.  If the candidates before [(ex, sym)] are all unavailable and
    [(ex, sym)] is answered with [lbl], then the queries issued for the
    ticker are exactly those up to [(ex, sym)], none for the candidates
    after it, and the ticker contributes a row only if [lbl] is a buy label
    (so not for "SELL"); the loop then goes on with the next ticker.
    Conversely, whenever a candidate is queried, every candidate queried
    before it for that ticker was unavailable. *)
Theorem c6_probing_stops_at_first_answer :
  (forall g w label tf total i t rest n pre ex sym post lbl,
      tv_symbol_candidates g w t = pre ++ (ex, sym) :: post ->
      unavailable_from w tf pre n = true ->
      get_tv_rating w (n + List.length pre) ex sym tf = Some lbl ->
      scan_tickers g w label tf total i (t :: rest) n =
        (let '(rows, tr2, n2) :=
           scan_tickers g w label tf total (S i) rest (S (n + List.length pre)) in
         ((if buy_label lbl
           then [{| ticker := t; tv_exchange := ex; tv_symbol := sym;
                    rating := lbl; timeframe := tf |}]
           else []) ++ rows,
          queries n tf (pre ++ [(ex, sym)]) ++ shown label tf total i
            ++ EvSleep (SLEEP_BETWEEN_CALLS g) :: tr2,
          n2))
      /\ buy_label "SELL" = false) /\
  (forall g w t tf n r tr n' k e s j e' s',
      probe w t tf (tv_symbol_candidates g w t) n = (r, tr, n') ->
      In (EvQuery k e s tf) tr -> In (EvQuery j e' s' tf) tr -> j < k ->
      get_tv_rating w j e' s' tf = None).
Proof.
  split.
  - intros g w label tf total i t rest n pre ex sym post lbl Hc Hpre Hans.
    split; [|reflexivity].
    erewrite scan_tickers_cons.
    2:{ rewrite Hc. apply probe_first_answer; eassumption. }
    destruct (scan_tickers g w label tf total (S i) rest (S (n + List.length pre)))
      as [[rows tr2] n2].
    now destruct (buy_label lbl).
  - intros g w t tf n r tr n' k e s j e' s' H. eapply probe_earlier_unavailable, H.
Qed.

Lemma c6_witness :
  scan_tickers Equity.module_globals (Sample.equity_world Sample.nyse_sells)
               "sp500" "4h" 1 1 ["F"] 0
  = ([], [EvQuery 0 "NASDAQ" "F" "4h"; EvQuery 1 "NYSE" "F" "4h";
          EvSleep (15 # 100)], 2)
  /\ get_tv_rating (Sample.equity_world Sample.nyse_sells) 0 "NASDAQ" "F" "4h" = None.
Proof.
  split.
  - apply (proj1 c6_probing_stops_at_first_answer
             Equity.module_globals (Sample.equity_world Sample.nyse_sells)
             "sp500" "4h" 1 1 "F" [] 0
             [("NASDAQ", "F")] "NYSE" "F" [("AMEX", "F")] "SELL");
      reflexivity.
  - apply (proj2 c6_probing_stops_at_first_answer
             Equity.module_globals (Sample.equity_world Sample.nyse_sells)
             "F" "4h" 0 None
             [EvQuery 0 "NASDAQ" "F" "4h"; EvQuery 1 "NYSE" "F" "4h"] 2
             1 "NYSE" "F" 0 "NASDAQ" "F").
    + reflexivity.
    + simpl; auto.
    + simpl; auto.
    + lia.
Defined.

(** C7.  The rating lookup has no exceptional outcome.  Whatever the
    external call does, [get_tv_rating] returns a value: [None] when the
    call raises, the summary's RECOMMENDATION entry ([None] if it has none)
    when it answers.  Hence no behaviour of the service keeps
    [scan_universe] from writing the table of each timeframe. *)
Theorem c7_rating_lookup_never_raises :
  forall w n exchange symbol interval,
    (exists rec : option string,
        get_tv_rating w n exchange symbol interval = rec /\
        match ta w n symbol exchange "america" interval with
        | Raise _ => rec = None
        | Ok summary => rec = dict_get summary "RECOMMENDATION"
        end) /\
    (forall g tickers label intervals m,
        In interval intervals ->
        exists table,
          In (EvWrite (out_file_name label interval) table)
             (fst (scan_universe g w tickers label intervals m))).
Proof.
  intros w n exchange symbol interval. split.
  - exists (get_tv_rating w n exchange symbol interval). split; [reflexivity|].
    unfold get_tv_rating, try_get_analysis.
    now destruct (ta w n symbol exchange "america" interval).
  - intros g tickers label intervals m Hin. now apply scan_universe_writes.
Qed.

Lemma c7_witness :
  exists table,
    In (EvWrite "tv_scan_sp500_4h.csv" table)
       (fst (scan_universe Equity.module_globals (Sample.equity_world Sample.all_down)
                           ["AAPL"; "MSFT"] "sp500" ["4h"; "1W"] 0)).
Proof.
  apply (proj2 (c7_rating_lookup_never_raises
                  (Sample.equity_world Sample.all_down) 0 "NASDAQ" "AAPL" "4h")
               Equity.module_globals ["AAPL"; "MSFT"] "sp500" ["4h"; "1W"] 0).
  simpl; auto.
Defined.

(** C9.  An identifier whose candidates are all unavailable is skipped
    silently.  At the ticker where this happens every candidate is queried,
    no row is appended and the loop goes on with the next ticker; and if the
    candidates of [t] are unavailable whenever they are asked for timeframe
    [tf], no table written holds a row of [t] for [tf]. *)
Theorem c9_unreachable_identifier_omitted :
  (forall g w label tf total i t rest n,
      unavailable_from w tf (tv_symbol_candidates g w t) n = true ->
      scan_tickers g w label tf total i (t :: rest) n =
        (let cands := tv_symbol_candidates g w t in
         let '(rows, tr2, n2) :=
           scan_tickers g w label tf total (S i) rest (n + List.length cands) in
         (rows,
          queries n tf cands ++ shown label tf total i
            ++ EvSleep (SLEEP_BETWEEN_CALLS g) :: tr2,
          n2))) /\
  (forall g w tickers label intervals n t tf f table r,
      (forall k e s, In (e, s) (tv_symbol_candidates g w t) ->
                     get_tv_rating w k e s tf = None) ->
      In (EvWrite f table) (fst (scan_universe g w tickers label intervals n)) ->
      In r table -> timeframe r = tf -> ticker r <> t).
Proof.
  split.
  - intros g w label tf total i t rest n H.
    erewrite scan_tickers_cons by (apply probe_unavailable; exact H).
    cbv zeta.
    now destruct (scan_tickers g w label tf total (S i) rest
                    (n + List.length (tv_symbol_candidates g w t))) as [[rows tr2] n2].
  - intros g w tickers label intervals n t tf f table r Hdown Hw Hr Htf Ht.
    apply scan_universe_written in Hw. destruct Hw as (tf' & m & _ & _ & ->).
    apply (Permutation_in _ (Permutation_sym (out_table_perm _))) in Hr.
    destruct (scan_tickers g w label tf' (List.length tickers) 1 tickers m)
      as [[rows tr] m'] eqn:Es. simpl in Hr.
    destruct (scan_tickers_rows _ _ _ _ _ _ _ _ _ _ _ _ Es Hr)
      as (t' & k0 & tr1 & k1 & _ & Hp).
    destruct (probe_row _ _ _ _ _ _ _ _ Hp) as (H1 & H2 & H3 & _ & k & _ & H5).
    rewrite H2 in Htf. subst tf'. rewrite H1 in Ht. subst t'.
    rewrite (Hdown k _ _ H3) in H5. discriminate.
Qed.

Lemma c9_witness :
  scan_tickers Equity.module_globals (Sample.equity_world Sample.all_down)
               "sp500" "4h" 2 1 ["AAPL"; "MSFT"] 0
  = ([], [EvQuery 0 "NASDAQ" "AAPL" "4h"; EvQuery 1 "NYSE" "AAPL" "4h";
          EvQuery 2 "AMEX" "AAPL" "4h"; EvSleep (15 # 100);
          EvQuery 3 "NASDAQ" "MSFT" "4h"; EvQuery 4 "NYSE" "MSFT" "4h";
          EvQuery 5 "AMEX" "MSFT" "4h"; EvSleep (15 # 100)], 6)
  /\ (forall r,
         In r [{| ticker := "MSFT"; tv_exchange := "NASDAQ"; tv_symbol := "MSFT";
                  rating := "BUY"; timeframe := "4h" |}] ->
         timeframe r = "4h" -> ticker r <> "F").
Proof.
  split.
  - apply (proj1 c9_unreachable_identifier_omitted
             Equity.module_globals (Sample.equity_world Sample.all_down)
             "sp500" "4h" 2 1 "AAPL" ["MSFT"] 0).
    reflexivity.
  - intros r.
    apply (proj2 c9_unreachable_identifier_omitted
             Equity.module_globals (Sample.equity_world Sample.only_msft)
             ["F"; "MSFT"] "sp500" ["4h"] 0 "F" "4h" "tv_scan_sp500_4h.csv").
    + intros k e s Hin. simpl in Hin.
      destruct Hin as [H|[H|[H|[]]]]; inversion H; subst; reflexivity.
    + vm_compute. in_list.
Defined.

(** ** Sort keys *)

Lemma row_leb_total (a b : row) : row_leb a b = true \/ row_leb b a = true.
Proof.
  unfold row_leb. destruct (String.compare (rating a) (rating b)) eqn:E.
  - apply string_compare_eq in E. rewrite E, string_compare_refl.
    apply String.leb_total.
  - now left.
  - right. now rewrite (string_compare_gt_lt _ _ E).
Qed.

Lemma row_leb_trans (a b c : row) :
  row_leb a b = true -> row_leb b c = true -> row_leb a c = true.
Proof.
  unfold row_leb.
  destruct (String.compare (rating a) (rating b)) eqn:Eab; try discriminate;
    destruct (String.compare (rating b) (rating c)) eqn:Ebc; try discriminate;
    intros H1 H2.
  - apply string_compare_eq in Eab, Ebc. rewrite Eab, Ebc, string_compare_refl.
    eapply string_leb_trans; eassumption.
  - apply string_compare_eq in Eab. now rewrite Eab, Ebc.
  - apply string_compare_eq in Ebc. now rewrite <- Ebc, Eab.
  - now rewrite (string_compare_lt_trans _ _ _ Eab Ebc).
Qed.

Lemma row_leb_le (a b : row) : row_leb a b = true -> row_le a b.
Proof.
  unfold row_leb, row_le. destruct (String.compare (rating a) (rating b)) eqn:E.
  - apply string_compare_eq in E. now right.
  - now left.
  - discriminate.
Qed.

Lemma cap_geb_ge (a b : option Q) : Crypto.cap_geb a b = true -> Crypto.cap_ge a b.
Proof.
  destruct a as [x|], b as [y|]; simpl; try easy. apply Qle_bool_iff.
Qed.

Lemma cap_geb_total (a b : option Q) :
  Crypto.cap_geb a b = true \/ Crypto.cap_geb b a = true.
Proof.
  destruct a as [x|], b as [y|]; simpl; auto.
  destruct (Qlt_le_dec x y) as [H|H].
  - right. apply Qle_bool_iff. now apply Qlt_le_weak.
  - left. now apply Qle_bool_iff.
Qed.

Lemma cap_geb_trans (a b c : option Q) :
  Crypto.cap_geb a b = true -> Crypto.cap_geb b c = true -> Crypto.cap_geb a c = true.
Proof.
  destruct a as [x|], b as [y|], c as [z|]; simpl; try easy.
  rewrite !Qle_bool_iff. intros H1 H2. eapply Qle_trans; eassumption.
Qed.

Lemma StronglySorted_weaken {A : Type} (R R' : A -> A -> Prop) (l : list A) :
  (forall a b, R a b -> R' a b) -> StronglySorted R l -> StronglySorted R' l.
Proof.
  intros HR. induction 1 as [|x l Hs IH Hx]; constructor; auto.
  eapply Forall_impl; [|exact Hx]. auto.
Qed.

Lemma out_table_sorted (rows : list row) : StronglySorted row_le (out_table rows).
Proof.
  destruct rows as [|r rows]; [constructor|]. unfold out_table.
  eapply StronglySorted_weaken; [apply row_leb_le|].
  apply sort_by_sorted; [apply row_leb_total|apply row_leb_trans].
Qed.

Lemma filter_length_perm {A : Type} (f : A -> bool) (l l' : list A) :
  Permutation l l' -> List.length (filter f l) = List.length (filter f l').
Proof.
  induction 1 as [|x l l' _ IH|x y l|l l' l'' _ IH1 _ IH2]; simpl.
  - reflexivity.
  - destruct (f x); simpl; now rewrite IH.
  - destruct (f x), (f y); reflexivity.
  - now rewrite IH1.
Qed.

(** ** The coin loop *)

Lemma scan_coins_cons (w : Crypto.world) (c : Crypto.coin) (rest : list Crypto.coin)
    (n : nat) :
  Crypto.scan_coins w (c :: rest) n =
    (let '(r, tr1, n1) := Crypto.probe w c (Crypto.tv_symbols (Crypto.coin_symbol c)) n in
     let '(rows, tr2, n2) := Crypto.scan_coins w rest n1 in
     (match r with Some x => x :: rows | None => rows end, tr1 ++ tr2, n2)).
Proof. reflexivity. Qed.

Lemma coin_probe_row (w : Crypto.world) (c : Crypto.coin) (cands : list (string * string)) :
  forall n r tr n',
    Crypto.probe w c cands n = (Some r, tr, n') ->
    buy_label (Crypto.rating_4h r) = true /\
    Crypto.symbol r = PyStr.upper (Crypto.coin_symbol c) /\
    Crypto.market_cap r = Crypto.coin_market_cap c.
Proof.
  induction cands as [|[ex sym] cands IH]; intros n r tr n' H; simpl in H.
  - discriminate.
  - destruct (Crypto.ta w n sym ex "crypto" Crypto.INTERVAL_4_HOURS) as [sm|e].
    + destruct (buy_label (Crypto.recommendation sm)) eqn:Hb; inversion H; subst.
      simpl. auto.
    + destruct (Crypto.probe w c cands (S n)) as [[r0 tr0] n0] eqn:E.
      inversion H; subst. eapply IH; eassumption.
Qed.

Lemma coin_probe_trace (w : Crypto.world) (c : Crypto.coin) (cands : list (string * string)) :
  forall n r tr n' f table,
    Crypto.probe w c cands n = (r, tr, n') -> ~ In (Crypto.EvWrite f table) tr.
Proof.
  induction cands as [|[ex sym] cands IH]; intros n r tr n' f table H Hin; simpl in H.
  - inversion H; subst. destruct Hin.
  - destruct (Crypto.ta w n sym ex "crypto" Crypto.INTERVAL_4_HOURS) as [sm|e].
    + inversion H; subst. destruct Hin as [Hin|[]]. discriminate.
    + destruct (Crypto.probe w c cands (S n)) as [[r0 tr0] n0] eqn:E.
      inversion H; subst. destruct Hin as [Hin|[Hin|Hin]]; try discriminate.
      eapply IH; eassumption.
Qed.

Lemma scan_coins_rows (w : Crypto.world) (coins : list Crypto.coin) :
  forall n rows tr n' r,
    Crypto.scan_coins w coins n = (rows, tr, n') -> In r rows ->
    buy_label (Crypto.rating_4h r) = true.
Proof.
  induction coins as [|c rest IH]; intros n rows tr n' r H Hin.
  - inversion H; subst. destruct Hin.
  - rewrite scan_coins_cons in H. destruct (Crypto.probe w c (Crypto.tv_symbols (Crypto.coin_symbol c)) n)
      as [[r1 tr1] n1] eqn:Ep.
    destruct (Crypto.scan_coins w rest n1) as [[rows2 tr2] n2] eqn:Es.
    inversion H; subst. destruct r1 as [r1|]; simpl in Hin.
    + destruct Hin as [<-|Hin].
      * now destruct (coin_probe_row _ _ _ _ _ _ _ Ep).
      * eapply IH; eassumption.
    + eapply IH; eassumption.
Qed.

Lemma scan_coins_trace (w : Crypto.world) (coins : list Crypto.coin) :
  forall n rows tr n' f table,
    Crypto.scan_coins w coins n = (rows, tr, n') -> ~ In (Crypto.EvWrite f table) tr.
Proof.
  induction coins as [|c rest IH]; intros n rows tr n' f table H Hin.
  - inversion H; subst. destruct Hin.
  - rewrite scan_coins_cons in H. destruct (Crypto.probe w c (Crypto.tv_symbols (Crypto.coin_symbol c)) n)
      as [[r1 tr1] n1] eqn:Ep.
    destruct (Crypto.scan_coins w rest n1) as [[rows2 tr2] n2] eqn:Es.
    inversion H; subst. apply in_app_or in Hin. destruct Hin as [Hin|Hin].
    + eapply coin_probe_trace; eassumption.
    + eapply IH; eassumption.
Qed.

Lemma scan_coins_count (w : Crypto.world) (coins : list Crypto.coin) (s : string) :
  forall n rows tr n',
    Crypto.scan_coins w coins n = (rows, tr, n') ->
    List.length (filter (fun r => String.eqb (Crypto.symbol r) s) rows) <=
    List.length
      (filter (fun c => String.eqb (PyStr.upper (Crypto.coin_symbol c)) s) coins).
Proof.
  induction coins as [|c rest IH]; intros n rows tr n' H.
  - inversion H; subst. simpl. lia.
  - rewrite scan_coins_cons in H. destruct (Crypto.probe w c (Crypto.tv_symbols (Crypto.coin_symbol c)) n)
      as [[r1 tr1] n1] eqn:Ep.
    destruct (Crypto.scan_coins w rest n1) as [[rows2 tr2] n2] eqn:Es.
    inversion H; subst. specialize (IH _ _ _ _ Es). simpl.
    destruct r1 as [r1|].
    + destruct (coin_probe_row _ _ _ _ _ _ _ Ep) as (_ & Hs & _).
      simpl. rewrite Hs.
      destruct (String.eqb (PyStr.upper (Crypto.coin_symbol c)) s); simpl; lia.
    + destruct (String.eqb (PyStr.upper (Crypto.coin_symbol c)) s); simpl; lia.
Qed.

(** The only file the script writes is the sorted table of the rows
    collected over the two pages. *)
Lemma top_500_4h_written (w : Crypto.world) o tr f table :
  Crypto.top_500_4h w = (o, tr) -> In (Crypto.EvWrite f table) tr ->
  exists coins,
    Crypto.cg w = Ok coins /\
    table = sort_by Crypto.row_geb (fst (fst (Crypto.scan_coins w coins 0))).
Proof.
  unfold Crypto.top_500_4h. destruct (Crypto.cg w) as [coins|e].
  2:{ intros H; inversion H; subst. intros []. }
  destruct (Crypto.scan_coins w coins 0) as [[rows tr0] n0] eqn:Es.
  destruct rows as [|r rows]; intros H Hin; inversion H; subst.
  - exfalso. eapply scan_coins_trace; eassumption.
  - apply in_app_or in Hin. destruct Hin as [Hin|[Hin|[Hin|[]]]].
    + exfalso. eapply scan_coins_trace; eassumption.
    + inversion Hin; subst. exists coins. rewrite Es. split; reflexivity.
    + discriminate.
Qed.

(** ** Claims about the tables written *)

(** C8.  Every row of a written table is rated BUY or STRONG_BUY, and the
    table is sorted: in the equity scanner ascending by rating label and
    then by ticker, in the crypto script descending by market cap. *)
Theorem c8_tables_filtered_and_sorted :
  (forall g w tickers label intervals n f table,
      In (EvWrite f table) (fst (scan_universe g w tickers label intervals n)) ->
      Forall (fun r => rating r = "BUY" \/ rating r = "STRONG_BUY") table /\
      StronglySorted row_le table) /\
  (forall w o tr f table,
      Crypto.top_500_4h w = (o, tr) -> In (Crypto.EvWrite f table) tr ->
      Forall (fun r => Crypto.rating_4h r = "BUY" \/ Crypto.rating_4h r = "STRONG_BUY")
             table /\
      StronglySorted Crypto.row_ge table).
Proof.
  split.
  - intros g w tickers label intervals n f table Hw.
    apply scan_universe_written in Hw. destruct Hw as (tf & m & _ & _ & ->).
    split; [|apply out_table_sorted].
    destruct (scan_tickers g w label tf (List.length tickers) 1 tickers m)
      as [[rows tr] m'] eqn:Es. simpl.
    eapply Permutation_Forall; [apply out_table_perm|].
    apply Forall_forall. intros r Hr.
    destruct (scan_tickers_rows _ _ _ _ _ _ _ _ _ _ _ _ Es Hr)
      as (t & k0 & tr1 & k1 & _ & Hp).
    destruct (probe_row _ _ _ _ _ _ _ _ Hp) as (_ & _ & _ & Hb & _).
    now apply buy_label_spec.
  - intros w o tr f table Hrun Hw.
    destruct (top_500_4h_written _ _ _ _ _ Hrun Hw) as (coins & _ & ->).
    destruct (Crypto.scan_coins w coins 0) as [[rows tr0] n0] eqn:Es. simpl. split.
    + eapply Permutation_Forall; [apply sort_by_perm|].
      apply Forall_forall. intros r Hr. apply buy_label_spec.
      eapply scan_coins_rows; eassumption.
    + eapply StronglySorted_weaken.
      * intros a b. apply (cap_geb_ge (Crypto.market_cap a) (Crypto.market_cap b)).
      * apply sort_by_sorted; unfold Crypto.row_geb; intros.
        -- apply cap_geb_total.
        -- eapply cap_geb_trans; eassumption.
Qed.

Lemma c8_witness :
  (Forall (fun r => rating r = "BUY" \/ rating r = "STRONG_BUY")
          [Sample.aapl_buy; Sample.msft_strong_buy] /\
   StronglySorted row_le [Sample.aapl_buy; Sample.msft_strong_buy]) /\
  (Forall (fun r => Crypto.rating_4h r = "BUY" \/ Crypto.rating_4h r = "STRONG_BUY")
          [Sample.btc_buy; Sample.eth_buy] /\
   StronglySorted Crypto.row_ge [Sample.btc_buy; Sample.eth_buy]).
Proof.
  split.
  - apply (proj1 c8_tables_filtered_and_sorted
             Equity.module_globals (Sample.equity_world Sample.all_buy)
             ["MSFT"; "AAPL"] "sp500" ["4h"] 0 "tv_scan_sp500_4h.csv").
    vm_compute. in_list.
  - apply (proj2 c8_tables_filtered_and_sorted
             (Sample.crypto_world Sample.all_buy) Done
             (snd (Crypto.top_500_4h (Sample.crypto_world Sample.all_buy)))
             "tv_4h_buy_top500.csv").
    + reflexivity.
    + vm_compute. in_list.
Defined.

Lemma at_most_one {A : Type} (f : A -> bool) (l : list A) (a b : A) :
  List.length (filter f l) <= 1 -> In a l -> In b l -> f a = true -> f b = true -> a = b.
Proof.
  intros Hlen Ha Hb Hfa Hfb.
  assert (Ia : In a (filter f l)) by (apply filter_In; auto).
  assert (Ib : In b (filter f l)) by (apply filter_In; auto).
  destruct (filter f l) as [|x [|y l']]; simpl in *; try lia; try tauto.
  destruct Ia as [<-|[]], Ib as [<-|[]]. reflexivity.
Qed.

Lemma scan_tickers_count (g : globals) (w : world) (label tf : string) (total : nat)
    (tickers : list string) (t : string) :
  forall i n rows tr n',
    scan_tickers g w label tf total i tickers n = (rows, tr, n') ->
    List.length (filter (fun r => String.eqb (ticker r) t) rows) <=
    count_occ string_dec tickers t.
Proof.
  induction tickers as [|t0 rest IH]; intros i n rows tr n' H; simpl in H.
  - inversion H; subst. simpl. lia.
  - destruct (probe w t0 tf (tv_symbol_candidates g w t0) n) as [[r1 tr1] n1] eqn:Ep.
    destruct (scan_tickers g w label tf total (S i) rest n1) as [[rows2 tr2] n2] eqn:Es.
    inversion H; subst. specialize (IH _ _ _ _ _ Es).
    rewrite filter_app, length_app. simpl count_occ.
    destruct r1 as [r1|]; simpl.
    + destruct (probe_row _ _ _ _ _ _ _ _ Ep) as (Ht & _). rewrite Ht.
      destruct (string_dec t0 t) as [->|Hne].
      * rewrite String.eqb_refl. simpl. lia.
      * apply String.eqb_neq in Hne. rewrite Hne. simpl. lia.
    + destruct (string_dec t0 t); lia.
Qed.

(** C10.  Each occurrence of an identifier in the universe contributes at
    most one row to the table of a timeframe: the rows of a table that
    carry the ticker [t] are no more than the occurrences of [t] in the
    scanned list (so two candidates of an identifier listed once never both
    appear); likewise the rows of the crypto table with a given symbol are
    no more than the coins with that symbol. *)
Theorem c10_one_row_per_occurrence :
  (forall g w tickers label intervals n f table t,
      In (EvWrite f table) (fst (scan_universe g w tickers label intervals n)) ->
      List.length (filter (fun r => String.eqb (ticker r) t) table) <=
      count_occ string_dec tickers t /\
      (count_occ string_dec tickers t <= 1 ->
       forall r1 r2, In r1 table -> In r2 table ->
                     ticker r1 = t -> ticker r2 = t -> r1 = r2)) /\
  (forall w o tr f table coins s,
      Crypto.top_500_4h w = (o, tr) -> In (Crypto.EvWrite f table) tr ->
      Crypto.cg w = Ok coins ->
      List.length (filter (fun r => String.eqb (Crypto.symbol r) s) table) <=
      List.length
        (filter (fun c => String.eqb (PyStr.upper (Crypto.coin_symbol c)) s) coins)).
Proof.
  split.
  - intros g w tickers label intervals n f table t Hw.
    apply scan_universe_written in Hw. destruct Hw as (tf & m & _ & _ & ->).
    assert (Hle : List.length (filter (fun r => String.eqb (ticker r) t)
                    (out_table (fst (fst (scan_tickers g w label tf
                       (List.length tickers) 1 tickers m)))))
                  <= count_occ string_dec tickers t).
    { rewrite <- (filter_length_perm _ _ _ (out_table_perm _)).
      destruct (scan_tickers g w label tf (List.length tickers) 1 tickers m)
        as [[rows tr] m'] eqn:Es. simpl.
      eapply scan_tickers_count; eassumption. }
    split; [exact Hle|].
    intros Hone r1 r2 H1 H2 Ht1 Ht2.
    eapply (at_most_one (fun r => String.eqb (ticker r) t)); try eassumption.
    + lia.
    + rewrite Ht1. apply String.eqb_refl.
    + rewrite Ht2. apply String.eqb_refl.
  - intros w o tr f table coins s Hrun Hw Hcg.
    destruct (top_500_4h_written _ _ _ _ _ Hrun Hw) as (coins' & Hcg' & ->).
    rewrite Hcg in Hcg'. inversion Hcg'; subst coins'.
    rewrite <- (filter_length_perm _ _ _ (sort_by_perm _ _)).
    destruct (Crypto.scan_coins w coins 0) as [[rows tr0] n0] eqn:Es. simpl.
    eapply scan_coins_count; eassumption.
Qed.

Lemma c10_witness :
  List.length (filter (fun r => String.eqb (ticker r) "AAPL")
                      [Sample.aapl_buy; Sample.msft_strong_buy]) <= 1 /\
  List.length (filter (fun r => String.eqb (Crypto.symbol r) "BTC")
                      [Sample.btc_buy; Sample.eth_buy]) <= 1.
Proof.
  split.
  - apply (proj1 c10_one_row_per_occurrence
             Equity.module_globals (Sample.equity_world Sample.all_buy)
             ["MSFT"; "AAPL"] "sp500" ["4h"] 0 "tv_scan_sp500_4h.csv"
             [Sample.aapl_buy; Sample.msft_strong_buy] "AAPL").
    vm_compute. in_list.
  - apply (proj2 c10_one_row_per_occurrence
             (Sample.crypto_world Sample.all_buy) Done
             (snd (Crypto.top_500_4h (Sample.crypto_world Sample.all_buy)))
             "tv_4h_buy_top500.csv" [Sample.btc_buy; Sample.eth_buy]
             [Sample.eth; Sample.btc] "BTC").
    + reflexivity.
    + vm_compute. in_list.
    + reflexivity.
Defined.

(** ** The candidate generator *)

Lemma set_order_id : set_order_ok (fun s => s).
Proof. intros s _. reflexivity. Qed.

Lemma set_order_rev : set_order_ok (@rev string).
Proof. intros s _. apply Permutation_rev. Qed.

(** C5, as stated, fails: the order of the candidates is the iteration
    order of a Python set, which the code does not fix.  Two admissible
    iteration orders give two different lists for "BRK.B". *)
Lemma c5_order_depends_on_set_iteration :
  set_order_ok (set_iter (Sample.equity_world Sample.all_down)) /\
  set_order_ok (set_iter (Sample.equity_world_rev Sample.all_down)) /\
  tv_symbol_candidates Sample.two_venues (Sample.equity_world Sample.all_down) "BRK.B"
  <> tv_symbol_candidates Sample.two_venues
       (Sample.equity_world_rev Sample.all_down) "BRK.B".
Proof.
  split; [apply set_order_id|]. split; [apply set_order_rev|].
  vm_compute. discriminate.
Qed.

(** C5, amended.  For "BRK.B" and the venues NASDAQ, NYSE the candidate
    generator produces exactly the four pairs, each once; the two venues of
    one spelling come together in venue order, and which spelling comes
    first is the iteration order of the set of spellings. *)
Theorem c5_brk_b_candidates :
  forall g w,
    EQUITY_EXCHANGES g = ["NASDAQ"; "NYSE"] ->
    set_order_ok (set_iter w) ->
    let pairs := tv_symbol_candidates g w "BRK.B" in
    (forall p, In p pairs <->
               In p [("NASDAQ", "BRK.B"); ("NASDAQ", "BRK-B");
                     ("NYSE", "BRK.B"); ("NYSE", "BRK-B")]) /\
    NoDup pairs /\
    (pairs = [("NASDAQ", "BRK.B"); ("NYSE", "BRK.B");
              ("NASDAQ", "BRK-B"); ("NYSE", "BRK-B")] \/
     pairs = [("NASDAQ", "BRK-B"); ("NYSE", "BRK-B");
              ("NASDAQ", "BRK.B"); ("NYSE", "BRK.B")]).
Proof.
  intros g w Hex Hiter pairs.
  assert (Hcases : set_iter w ["BRK.B"; "BRK-B"] = ["BRK.B"; "BRK-B"] \/
                   set_iter w ["BRK.B"; "BRK-B"] = ["BRK-B"; "BRK.B"]).
  { apply Permutation_length_2_inv, Hiter.
    repeat constructor; simpl; intuition discriminate. }
  assert (Hp : pairs = [("NASDAQ", "BRK.B"); ("NYSE", "BRK.B");
                        ("NASDAQ", "BRK-B"); ("NYSE", "BRK-B")] \/
               pairs = [("NASDAQ", "BRK-B"); ("NYSE", "BRK-B");
                        ("NASDAQ", "BRK.B"); ("NYSE", "BRK.B")]).
  { subst pairs.
    change (tv_symbol_candidates g w "BRK.B")
      with (flat_map (fun t => map (fun ex => (ex, t)) (EQUITY_EXCHANGES g))
                     (set_iter w ["BRK.B"; "BRK-B"])).
    rewrite Hex. destruct Hcases as [-> | ->]; [left|right]; reflexivity. }
  split; [|split; [|exact Hp]].
  - intros p. destruct Hp as [-> | ->]; simpl; intuition.
  - destruct Hp as [-> | ->]; repeat constructor; simpl; intuition discriminate.
Qed.

Lemma c5_witness :
  tv_symbol_candidates Sample.two_venues (Sample.equity_world Sample.all_down) "BRK.B"
  = [("NASDAQ", "BRK.B"); ("NYSE", "BRK.B"); ("NASDAQ", "BRK-B"); ("NYSE", "BRK-B")]
  \/
  tv_symbol_candidates Sample.two_venues (Sample.equity_world Sample.all_down) "BRK.B"
  = [("NASDAQ", "BRK-B"); ("NYSE", "BRK-B"); ("NASDAQ", "BRK.B"); ("NYSE", "BRK.B")].
Proof.
  apply (c5_brk_b_candidates Sample.two_venues (Sample.equity_world Sample.all_down)).
  - reflexivity.
  - intros s _. apply Permutation_refl.
Defined.

(** ** The universe loaders *)

Lemma find_column_some (p : string -> bool) (df : DataFrame) c cells :
  find_column p df = Some (c, cells) -> In (c, cells) df /\ p c = true.
Proof. intros H. apply find_some in H. exact H. Qed.

Lemma read_sp500_csv_cells (w : world) (path : string) (syms : list string) :
  read_sp500_csv w path = Ok syms ->
  exists cells, csv_column w path cells /\ syms = map normalize cells.
Proof.
  unfold read_sp500_csv, csv_column.
  destruct (read_csv w path) as [df|e]; [|discriminate].
  destruct (find_column ticker_like df) as [[c cells]|] eqn:Hf; [|discriminate].
  intros H. inversion H. apply find_column_some in Hf.
  exists cells. split; [|reflexivity]. exists df, c. tauto.
Qed.

Lemma read_russell3000_cells (w : world) (path : string) (syms : list string) :
  read_russell3000 w path = Ok syms ->
  exists cells, csv_column w path cells /\ syms = map normalize cells.
Proof.
  unfold read_russell3000, csv_column.
  destruct (read_csv w path) as [df|e]; [|discriminate].
  destruct (find_column ticker_like df) as [[c cells]|] eqn:Hf; [|discriminate].
  intros H. inversion H. apply find_column_some in Hf.
  exists cells. split; [|reflexivity]. exists df, c. tauto.
Qed.

Lemma first_tables_source (w : world) (urls : list string) :
  forall init ts,
    first_tables w init urls = Some ts ->
    init = Some ts \/ exists url, In url urls /\ http_read_html w url = Ok ts.
Proof.
  induction urls as [|url urls IH]; intros init ts H; simpl in H.
  - now left.
  - right. unfold _try_read_html in H.
    destruct (http_read_html w url) as [tables|e] eqn:Hget.
    + destruct (truthy (Some tables)).
      * inversion H; subst. exists url. split; [now left|exact Hget].
      * destruct (IH _ _ H) as [Hi|(u & Hu & Hg)].
        -- inversion Hi; subst. exists url. split; [now left|exact Hget].
        -- exists u. split; [now right|exact Hg].
    + simpl in H. destruct (IH _ _ H) as [Hi|(u & Hu & Hg)]; [discriminate|].
      exists u. split; [now right|exact Hg].
Qed.

Lemma find_table_some (tables : list DataFrame) c cells :
  find_table tables = Some (c, cells) ->
  exists t, In t tables /\ In (c, cells) t /\ exact_header c = true.
Proof.
  induction tables as [|t tables IH]; simpl; [discriminate|].
  destruct (find_column exact_header t) as [col|] eqn:Hf.
  - intros H. inversion H; subst. apply find_column_some in Hf.
    exists t. split; [now left|exact Hf].
  - intros H. destruct (IH H) as (t' & Ht & Hc). exists t'. split; [now right|exact Hc].
Qed.

Lemma fetch_sp500_cells (w : world) (syms : list string) :
  fetch_sp500 w = Ok syms ->
  exists cells, sp500_web_column w cells /\ syms = map normalize cells.
Proof.
  unfold fetch_sp500, sp500_web_column.
  destruct (first_tables w None wiki_urls) as [ts|] eqn:Hft.
  - destruct (truthy (Some ts)) eqn:Htr; simpl.
    + destruct (find_table ts) as [[c cells]|] eqn:Hfind; [|discriminate].
      intros H. inversion H. exists cells. split; [|reflexivity]. left.
      apply find_table_some in Hfind. destruct Hfind as (t & Ht & Hc & Hh).
      apply first_tables_source in Hft. destruct Hft as [Hi|(url & Hu & Hg)];
        [discriminate|].
      exists url, ts, t, c. tauto.
    + destruct (http_read_csv w datahub_url) as [df|e] eqn:Hcsv; [|discriminate].
      destruct (find_column exact_header df) as [[c cells]|] eqn:Hf; [|discriminate].
      intros H. inversion H. exists cells. split; [|reflexivity]. right.
      apply find_column_some in Hf. exists df, c. tauto.
  - simpl.
    destruct (http_read_csv w datahub_url) as [df|e] eqn:Hcsv; [|discriminate].
    destruct (find_column exact_header df) as [[c cells]|] eqn:Hf; [|discriminate].
    intros H. inversion H. exists cells. split; [|reflexivity]. right.
    apply find_column_some in Hf. exists df, c. tauto.
Qed.

Lemma count_occ_map_normalize (cells : list string) (x : string) :
  count_occ string_dec (map normalize cells) x =
  List.length (filter (fun c => String.eqb (normalize c) x) cells).
Proof.
  induction cells as [|c cells IH]; simpl; [reflexivity|].
  destruct (string_dec (normalize c) x) as [->|Hne].
  - rewrite String.eqb_refl. simpl. now rewrite IH.
  - apply String.eqb_neq in Hne. now rewrite Hne.
Qed.

(** C1, as stated, fails: no loader removes duplicates.  A CSV that lists
    AAPL twice yields AAPL twice. *)
Lemma c1_duplicate_rows_survive :
  read_sp500_csv (Sample.equity_world Sample.all_down) "sp_twice.csv"
  = Ok ["AAPL"; "AAPL"] /\
  ~ NoDup ["AAPL"; "AAPL"].
Proof.
  split; [reflexivity|].
  intros H. inversion H as [|x l Hnotin _]; subst. apply Hnotin. now left.
Qed.

(** C1, amended.  Whatever the source, a loader returns the normalized
    identifiers of all rows of the source column, in source order and
    without removing duplicates: an identifier occurs once for each row
    that normalizes to it.  The market-cap source returns page 1 followed
    by page 2, as received. *)
Theorem c1_loaders_keep_every_row :
  (forall w path syms,
      read_sp500_csv w path = Ok syms ->
      exists cells, csv_column w path cells /\ syms = map normalize cells) /\
  (forall w path syms,
      read_russell3000 w path = Ok syms ->
      exists cells, csv_column w path cells /\ syms = map normalize cells) /\
  (forall w syms,
      fetch_sp500 w = Ok syms ->
      exists cells, sp500_web_column w cells /\ syms = map normalize cells) /\
  (forall cells x,
      count_occ string_dec (map normalize cells) x =
      List.length (filter (fun c => String.eqb (normalize c) x) cells)) /\
  (forall w coins,
      Crypto.cg w = Ok coins ->
      exists page1 page2,
        Crypto.markets w 1 = Ok page1 /\ Crypto.markets w 2 = Ok page2 /\
        coins = page1 ++ page2).
Proof.
  split; [exact read_sp500_csv_cells|].
  split; [exact read_russell3000_cells|].
  split; [exact fetch_sp500_cells|].
  split; [exact count_occ_map_normalize|].
  intros w coins. unfold Crypto.cg.
  destruct (Crypto.markets w 1) as [p1|e]; [|discriminate].
  destruct (Crypto.markets w 2) as [p2|e]; [|discriminate].
  intros H. inversion H. exists p1, p2. auto.
Qed.

Lemma c1_witness :
  (exists cells,
      csv_column (Sample.equity_world Sample.all_down) "sp_twice.csv" cells /\
      ["AAPL"; "AAPL"] = map normalize cells) /\
  (exists page1 page2,
      Crypto.markets (Sample.crypto_world Sample.all_down) 1 = Ok page1 /\
      Crypto.markets (Sample.crypto_world Sample.all_down) 2 = Ok page2 /\
      [Sample.eth; Sample.btc] = page1 ++ page2).
Proof.
  split.
  - apply (proj1 c1_loaders_keep_every_row
             (Sample.equity_world Sample.all_down) "sp_twice.csv").
    reflexivity.
  - apply (proj2 (proj2 (proj2 (proj2 c1_loaders_keep_every_row)))
             (Sample.crypto_world Sample.all_down)).
    reflexivity.
Defined.

(** ** Normalization *)

Lemma normalize_cons (c : ascii) (s : string) :
  normalize (String c s) =
    if Ascii.eqb c " " then normalize s
    else String (PyStr.upper_char (if Ascii.eqb c "." || Ascii.eqb c "/" then "-"%char else c))
                (normalize s).
Proof.
  unfold normalize, PyStr.upper, PyStr.remove, PyStr.replace. simpl.
  destruct (Ascii.eqb_spec c "."); [subst; reflexivity|].
  destruct (Ascii.eqb_spec c "/"); [subst; reflexivity|].
  simpl. now destruct (Ascii.eqb c " ").
Qed.

Lemma normalize_without_blank (s : string) :
  PyStr.has_char " " s = false -> normalize s = normalize_as_specified s.
Proof.
  unfold normalize, normalize_as_specified, PyStr.upper, PyStr.remove, PyStr.replace.
  induction s as [|c s IH]; simpl; [reflexivity|].
  rewrite orb_false_iff. intros [Hc Hs].
  destruct (Ascii.eqb_spec c "."); [subst; simpl; now rewrite IH|].
  destruct (Ascii.eqb_spec c "/"); [subst; simpl; now rewrite IH|].
  rewrite Hc. simpl. now rewrite IH.
Qed.

Lemma normalize_has_dash (s : string) :
  PyStr.has_char "." s = true \/ PyStr.has_char "-" s = true ->
  PyStr.has_char "-" (normalize s) = true.
Proof.
  induction s as [|c s IH]; simpl.
  - intros [H|H]; discriminate.
  - rewrite normalize_cons. rewrite !orb_true_iff.
    destruct (Ascii.eqb_spec c " ") as [->|Hsp].
    + simpl. intros [[H|H]|[H|H]]; try discriminate; apply IH; auto.
    + destruct (Ascii.eqb_spec c ".") as [->|Hdot]; [intros _; reflexivity|].
      destruct (Ascii.eqb_spec c "/") as [->|Hsl].
      * simpl. intros [[H|H]|[H|H]]; try discriminate; reflexivity.
      * simpl. destruct (Ascii.eqb_spec c "-") as [->|Hd]; [intros _; reflexivity|].
        simpl. intros [[H|H]|[H|H]]; try discriminate; rewrite IH; auto using orb_true_r.
Qed.

Lemma remove_has_char (c : ascii) (s : string) :
  PyStr.has_char c (PyStr.remove c s) = false.
Proof.
  unfold PyStr.remove. induction s as [|d s IH]; simpl; [reflexivity|].
  destruct (Ascii.eqb_spec d c) as [->|Hne]; [exact IH|].
  simpl. rewrite IH. destruct (Ascii.eqb_spec d c); [congruence|reflexivity].
Qed.

(** C4, as stated, fails on both counts: the equity loaders also delete
    blanks, and the crypto script deletes "." and "-" where the equity
    loaders write "-". *)
Lemma c4_pipelines_disagree :
  normalize "BF B" = "BFB" /\ normalize_as_specified "BF B" = "BF B" /\
  normalize "BRK.B" = "BRK-B" /\ Crypto.tv_base "BRK.B" = "BRKB" /\
  normalize "BRK.B" <> Crypto.tv_base "BRK.B".
Proof. repeat split; try reflexivity. vm_compute. discriminate. Qed.

(** C4, amended.  Within the equity scanner normalization is one function,
    applied by every loader to every cell: character by character it
    deletes blanks, writes "-" for "." and "/" and uppercases the rest; on
    tickers without blanks it is the specified normalization.  The crypto
    script formats symbols differently (it deletes "." and "-"), so the
    two never agree on a ticker that contains "." or "-". *)
Theorem c4_normalization_per_pipeline :
  (forall w path syms,
      read_sp500_csv w path = Ok syms ->
      exists cells, csv_column w path cells /\ syms = map normalize cells) /\
  (forall w path syms,
      read_russell3000 w path = Ok syms ->
      exists cells, csv_column w path cells /\ syms = map normalize cells) /\
  (forall w syms,
      fetch_sp500 w = Ok syms ->
      exists cells, sp500_web_column w cells /\ syms = map normalize cells) /\
  (normalize "" = "" /\
   forall c s,
     normalize (String c s) =
       if Ascii.eqb c " " then normalize s
       else String (PyStr.upper_char
                      (if Ascii.eqb c "." || Ascii.eqb c "/" then "-"%char else c))
                   (normalize s)) /\
  (forall s, PyStr.has_char " " s = false -> normalize s = normalize_as_specified s) /\
  (forall s, PyStr.has_char "." s = true \/ PyStr.has_char "-" s = true ->
             normalize s <> Crypto.tv_base s).
Proof.
  split; [exact read_sp500_csv_cells|].
  split; [exact read_russell3000_cells|].
  split; [exact fetch_sp500_cells|].
  split; [split; [reflexivity|exact normalize_cons]|].
  split; [exact normalize_without_blank|].
  intros s Hs Heq. apply normalize_has_dash in Hs.
  rewrite Heq in Hs. unfold Crypto.tv_base in Hs.
  now rewrite remove_has_char in Hs.
Qed.

Lemma c4_witness :
  (exists cells,
      csv_column (Sample.equity_world Sample.all_down) "r3k.csv" cells /\
      ["AAPL"; "MSFT"] = map normalize cells) /\
  normalize "BRK/B" = normalize_as_specified "BRK/B" /\
  normalize "brk-b" <> Crypto.tv_base "brk-b".
Proof.
  split; [|split].
  - apply (proj1 (proj2 c4_normalization_per_pipeline)
             (Sample.equity_world Sample.all_down) "r3k.csv").
    reflexivity.
  - apply (proj1 (proj2 (proj2 (proj2 (proj2 c4_normalization_per_pipeline))))).
    reflexivity.
  - apply (proj2 (proj2 (proj2 (proj2 (proj2 c4_normalization_per_pipeline))))).
    right. reflexivity.
Defined.

(** ** Pacing of the external queries *)

Section Blocks.

Context {A : Type} (S q1 q2 : A).

Lemma one_in_block (X R mid post : list A) :
  X ++ S :: R = mid ++ q2 :: post -> q2 <> S -> ~ In S mid ->
  exists post', X = mid ++ q2 :: post'.
Proof.
  revert mid. induction X as [|x X IH]; intros [|m mid] H Hq Hmid; simpl in H.
  - inversion H. congruence.
  - inversion H; subst. exfalso. apply Hmid. now left.
  - inversion H; subst. now exists X.
  - inversion H; subst. destruct (IH mid H2 Hq) as [post' ->].
    + intros Hin. apply Hmid. now right.
    + now exists post'.
Qed.

Lemma two_in_block (X R pre mid post : list A) :
  X ++ S :: R = pre ++ q1 :: mid ++ q2 :: post ->
  q1 <> S -> q2 <> S -> ~ In S mid ->
  (exists post', X = pre ++ q1 :: mid ++ q2 :: post') \/
  (exists pre', R = pre' ++ q1 :: mid ++ q2 :: post).
Proof.
  revert pre. induction X as [|x X IH]; intros [|p pre] H H1 H2 Hmid; simpl in H.
  - inversion H. congruence.
  - inversion H; subst. right. now exists pre.
  - inversion H; subst. left.
    destruct (one_in_block _ _ _ _ H4 H2 Hmid) as [post' ->]. now exists post'.
  - inversion H; subst. destruct (IH pre H4 H1 H2 Hmid) as [[post' ->]|[pre' ->]].
    + left. now exists post'.
    + right. now exists pre'.
Qed.

End Blocks.

Lemma app_eq_elt {A : Type} (l1 l2 pre post : list A) (q : A) :
  l1 ++ l2 = pre ++ q :: post ->
  (exists post1, l1 = pre ++ q :: post1 /\ post = post1 ++ l2) \/
  (exists pre2, pre = l1 ++ pre2 /\ l2 = pre2 ++ q :: post).
Proof.
  revert pre. induction l1 as [|x l1 IH]; intros pre H; simpl in H.
  - right. now exists pre.
  - destruct pre as [|p pre]; simpl in H; inversion H; subst.
    + left. now exists l1.
    + destruct (IH pre H2) as [(post1 & -> & ->)|(pre2 & -> & ->)].
      * left. now exists post1.
      * right. now exists pre2.
Qed.

Lemma scan_tickers_paced (g : globals) (w : world) (label tf : string) (total : nat)
    (tickers : list string) :
  forall i n rows tr n' pre k1 e1 s1 t1 mid k2 e2 s2 t2 post,
    scan_tickers g w label tf total i tickers n = (rows, tr, n') ->
    tr = pre ++ EvQuery k1 e1 s1 t1 :: mid ++ EvQuery k2 e2 s2 t2 :: post ->
    ~ In (EvSleep (SLEEP_BETWEEN_CALLS g)) mid ->
    t1 = t2 /\
    exists t, In t tickers /\
              In (e1, s1) (tv_symbol_candidates g w t) /\
              In (e2, s2) (tv_symbol_candidates g w t).
Proof.
  induction tickers as [|t rest IH];
    intros i n rows tr n' pre k1 e1 s1 t1 mid k2 e2 s2 t2 post H Htr Hmid; simpl in H.
  - inversion H; subst. destruct pre; discriminate.
  - destruct (probe w t tf (tv_symbol_candidates g w t) n) as [[r1 tr1] n1] eqn:Ep.
    destruct (scan_tickers g w label tf total (S i) rest n1) as [[rows2 tr2] n2] eqn:Es.
    injection H as _ Ht _. rewrite <- Ht in Htr. clear Ht.
    rewrite app_assoc in Htr.
    apply two_in_block in Htr; try discriminate; [|exact Hmid].
    destruct Htr as [[post' HX]|[pre' HR]].
    + assert (Hq : forall k e s t', In (EvQuery k e s t') (tr1 ++ shown label tf total i) ->
                     t' = tf /\ In (e, s) (tv_symbol_candidates g w t)).
      { intros k e s t' Hin. apply in_app_or in Hin. destruct Hin as [Hin|Hin].
        - destruct (probe_trace_queries _ _ _ _ _ _ _ _ _ Ep Hin)
            as (k' & e' & s' & Heq & Hc). inversion Heq; subst. auto.
        - unfold shown in Hin. destruct (i mod 25 =? 0); [|destruct Hin].
          destruct Hin as [Hin|[]]. discriminate. }
      destruct (Hq k1 e1 s1 t1) as [-> Hc1]; [rewrite HX; apply in_elt|].
      destruct (Hq k2 e2 s2 t2) as [-> Hc2].
      { rewrite HX. apply in_or_app. right. right. apply in_elt. }
      split; [reflexivity|]. exists t. split; [now left|]. auto.
    + destruct (IH _ _ _ _ _ _ _ _ _ _ _ _ _ _ _ _ Es HR Hmid)
        as (Ht & t' & Hin & Hc1 & Hc2).
      split; [exact Ht|]. exists t'. split; [now right|]. auto.
Qed.

(** After the last ticker of a timeframe the scanner has slept. *)
Lemma scan_tickers_last (g : globals) (w : world) (label tf : string) (total : nat)
    (tickers : list string) :
  forall i n rows tr n',
    scan_tickers g w label tf total i tickers n = (rows, tr, n') ->
    tr = [] \/ exists tr0, tr = tr0 ++ [EvSleep (SLEEP_BETWEEN_CALLS g)].
Proof.
  induction tickers as [|t rest IH]; intros i n rows tr n' H; simpl in H.
  - inversion H; subst. now left.
  - destruct (probe w t tf (tv_symbol_candidates g w t) n) as [[r1 tr1] n1] eqn:Ep.
    destruct (scan_tickers g w label tf total (S i) rest n1) as [[rows2 tr2] n2] eqn:Es.
    inversion H; subst rows tr n'. right.
    destruct (IH _ _ _ _ _ Es) as [->|[tr0 ->]].
    + exists (tr1 ++ shown label tf total i). now rewrite app_assoc.
    + exists (tr1 ++ shown label tf total i ++ EvSleep (SLEEP_BETWEEN_CALLS g) :: tr0).
      now rewrite <- !app_assoc.
Qed.

Lemma scan_universe_paced (g : globals) (w : world) (tickers : list string)
    (label : string) (intervals : list string) :
  forall n pre k1 e1 s1 t1 mid k2 e2 s2 t2 post,
    fst (scan_universe g w tickers label intervals n)
      = pre ++ EvQuery k1 e1 s1 t1 :: mid ++ EvQuery k2 e2 s2 t2 :: post ->
    ~ In (EvSleep (SLEEP_BETWEEN_CALLS g)) mid ->
    t1 = t2 /\
    exists t, In t tickers /\
              In (e1, s1) (tv_symbol_candidates g w t) /\
              In (e2, s2) (tv_symbol_candidates g w t).
Proof.
  induction intervals as [|tf more IH];
    intros n pre k1 e1 s1 t1 mid k2 e2 s2 t2 post Htr Hmid; simpl in Htr.
  - destruct pre; discriminate.
  - destruct (scan_tickers g w label tf (List.length tickers) 1 tickers n)
      as [[rows tr] n1] eqn:Es.
    specialize (IH n1).
    destruct (scan_universe g w tickers label more n1) as [tr' n2] eqn:Eu.
    simpl in Htr, IH.
    assert (Hrest : forall pre',
               EvWrite (out_file_name label tf) (out_table rows)
                 :: EvPrint (wrote_line (out_file_name label tf)
                                        (List.length (out_table rows))) :: tr'
               = pre' ++ EvQuery k1 e1 s1 t1 :: mid ++ EvQuery k2 e2 s2 t2 :: post ->
               t1 = t2 /\
               exists t, In t tickers /\
                         In (e1, s1) (tv_symbol_candidates g w t) /\
                         In (e2, s2) (tv_symbol_candidates g w t)).
    { intros [|a [|b pre']] Hq; simpl in Hq; try discriminate.
      inversion Hq; subst. eapply IH; eauto. }
    destruct (scan_tickers_last _ _ _ _ _ _ _ _ _ _ _ Es) as [->|[tr0 ->]].
    + simpl in Htr. eapply Hrest; eassumption.
    + rewrite <- app_assoc in Htr. simpl in Htr.
      apply two_in_block in Htr; try discriminate; [|exact Hmid].
      destruct Htr as [[post' HX]|[pre' HR]].
      * apply (scan_tickers_paced g w label tf (List.length tickers) tickers
                 1 n rows _ n1 pre k1 e1 s1 t1 mid k2 e2 s2 t2
                 (post' ++ [EvSleep (SLEEP_BETWEEN_CALLS g)]) Es); [|exact Hmid].
        rewrite HX, <- app_assoc. simpl. now rewrite <- app_assoc.
      * eapply Hrest; eassumption.
Qed.

Lemma coin_probe_fail_sleep (w : Crypto.world) (c : Crypto.coin)
    (cands : list (string * string)) :
  forall n r tr n' pre k e s tf post err,
    Crypto.probe w c cands n = (r, tr, n') ->
    tr = pre ++ Crypto.EvQuery k e s tf :: post ->
    Crypto.ta w k s e "crypto" tf = Raise err ->
    exists post', post = Crypto.EvSleep (2 # 10) :: post'.
Proof.
  induction cands as [|[ex sym] cands IH];
    intros n r tr n' pre k e s tf post err H Htr Hfail; simpl in H.
  - inversion H; subst. destruct pre; discriminate.
  - destruct (Crypto.ta w n sym ex "crypto" Crypto.INTERVAL_4_HOURS) as [sm|e0] eqn:Hta.
    + injection H as _ Ht _. rewrite <- Ht in Htr.
      destruct pre as [|a [|b pre]]; simpl in Htr; try discriminate.
      inversion Htr; subst. congruence.
    + destruct (Crypto.probe w c cands (S n)) as [[r0 tr0] n0] eqn:E.
      injection H as _ Ht _. rewrite <- Ht in Htr.
      destruct pre as [|a [|b pre]]; simpl in Htr; try discriminate.
      * inversion Htr; subst. now exists tr0.
      * inversion Htr; subst. eapply IH; eauto.
Qed.

Lemma scan_coins_fail_sleep (w : Crypto.world) (coins : list Crypto.coin) :
  forall n rows tr n' pre k e s tf post err,
    Crypto.scan_coins w coins n = (rows, tr, n') ->
    tr = pre ++ Crypto.EvQuery k e s tf :: post ->
    Crypto.ta w k s e "crypto" tf = Raise err ->
    exists post', post = Crypto.EvSleep (2 # 10) :: post'.
Proof.
  induction coins as [|c rest IH];
    intros n rows tr n' pre k e s tf post err H Htr Hfail.
  - inversion H; subst. destruct pre; discriminate.
  - rewrite scan_coins_cons in H.
    destruct (Crypto.probe w c (Crypto.tv_symbols (Crypto.coin_symbol c)) n)
      as [[r1 tr1] n1] eqn:Ep.
    destruct (Crypto.scan_coins w rest n1) as [[rows2 tr2] n2] eqn:Es.
    injection H as _ Ht _. rewrite <- Ht in Htr.
    apply app_eq_elt in Htr. destruct Htr as [(post1 & H1 & ->)|(pre2 & _ & H2)].
    + destruct (coin_probe_fail_sleep _ _ _ _ _ _ _ _ _ _ _ _ _ _ Ep H1 Hfail)
        as [post' ->].
      now exists (post' ++ tr2).
    + eapply IH; eauto.
Qed.

(** C3.  The claim asks for a sleep of the configured duration between
    any two consecutive external queries, as do the name of
    [SLEEP_BETWEEN_CALLS] and the help of [--sleep] ("Seconds to sleep
    between TradingView calls").  The equity scanner does not do it: its
    [time.sleep] stands after the candidate loop, so for a ticker the
    service does not answer the three venues are queried back to back and
    one sleep follows.  Run on the ticker list ["F"] with the service
    down: *)
Theorem c3_candidates_queried_back_to_back :
  fst (scan_universe Equity.module_globals (Sample.equity_world Sample.all_down)
                     ["F"] "sp500" ["4h"] 0)
  = [EvQuery 0 "NASDAQ" "F" "4h"; EvQuery 1 "NYSE" "F" "4h"; EvQuery 2 "AMEX" "F" "4h";
     EvSleep (15 # 100);
     EvWrite "tv_scan_sp500_4h.csv" [];
     EvPrint "Wrote tv_scan_sp500_4h.csv with 0 tickers rated BUY/STRONG_BUY."] /\
  paced (SLEEP_BETWEEN_CALLS Equity.module_globals) false
        (fst (scan_universe Equity.module_globals (Sample.equity_world Sample.all_down)
                            ["F"] "sp500" ["4h"] 0)) = false.
Proof. split; reflexivity. Qed.

(** The crypto script pauses only in its [except] branch: two answered
    queries follow each other directly. *)
Lemma coin_answers_follow_without_pause :
  snd (Crypto.top_500_4h (Sample.crypto_world Sample.all_buy))
  = [Crypto.EvQuery 0 "BINANCE" "ETHUSDT" "4h";
     Crypto.EvQuery 1 "BINANCE" "BTCUSDT" "4h";
     Crypto.EvWrite "tv_4h_buy_top500.csv" [Sample.btc_buy; Sample.eth_buy];
     Crypto.EvPrintHead [Sample.btc_buy; Sample.eth_buy]] /\
  Crypto.paced (2 # 10) false
        (snd (Crypto.top_500_4h (Sample.crypto_world Sample.all_buy))) = false.
Proof. split; reflexivity. Qed.

(** Where the scripts do pause.  In the equity scanner two queries with no
    sleep of the configured duration between them are attempts for one
    identifier in one timeframe: queries for different identifiers are
    separated by the delay.  In the crypto script a sleep of 0.2 s follows
    every failed query at once. *)
Lemma unpaced_queries_share_identifier :
  (forall g w tickers label intervals n pre k1 e1 s1 t1 mid k2 e2 s2 t2 post,
      fst (scan_universe g w tickers label intervals n)
        = pre ++ EvQuery k1 e1 s1 t1 :: mid ++ EvQuery k2 e2 s2 t2 :: post ->
      ~ In (EvSleep (SLEEP_BETWEEN_CALLS g)) mid ->
      t1 = t2 /\
      exists t, In t tickers /\
                In (e1, s1) (tv_symbol_candidates g w t) /\
                In (e2, s2) (tv_symbol_candidates g w t)) /\
  (forall w o tr pre k e s tf post err,
      Crypto.top_500_4h w = (o, tr) ->
      tr = pre ++ Crypto.EvQuery k e s tf :: post ->
      Crypto.ta w k s e "crypto" tf = Raise err ->
      exists post', post = Crypto.EvSleep (2 # 10) :: post').
Proof.
  split; [intros; eapply scan_universe_paced; eassumption|].
  intros w o tr pre k e s tf post err. unfold Crypto.top_500_4h.
  destruct (Crypto.cg w) as [coins|e0].
  2:{ intros H Htr. inversion H; subst. destruct pre; discriminate. }
  destruct (Crypto.scan_coins w coins 0) as [[rows tr0] n0] eqn:Es.
  destruct rows as [|r rows]; intros H Htr Hfail; injection H as _ Ht.
  - rewrite <- Ht in Htr. eapply scan_coins_fail_sleep; eauto.
  - rewrite <- Ht in Htr. apply app_eq_elt in Htr.
    destruct Htr as [(post1 & H1 & ->)|(pre2 & _ & H2)].
    + destruct (scan_coins_fail_sleep _ _ _ _ _ _ _ _ _ _ _ _ _ Es H1 Hfail)
        as [post' ->].
      eexists. reflexivity.
    + destruct pre2 as [|a [|b pre2]]; simpl in H2; try discriminate.
      inversion H2. destruct pre2; discriminate.
Qed.

Lemma unpaced_queries_share_identifier_example :
  ("4h" = "4h" /\
   exists t, In t ["F"; "MSFT"] /\
             In ("NASDAQ", "F")
                (tv_symbol_candidates Equity.module_globals
                   (Sample.equity_world Sample.only_msft) t) /\
             In ("AMEX", "F")
                (tv_symbol_candidates Equity.module_globals
                   (Sample.equity_world Sample.only_msft) t)) /\
  (exists post',
      tl (snd (Crypto.top_500_4h (Sample.crypto_world Sample.all_down)))
      = Crypto.EvSleep (2 # 10) :: post').
Proof.
  split.
  - apply (proj1 unpaced_queries_share_identifier
             Equity.module_globals (Sample.equity_world Sample.only_msft)
             ["F"; "MSFT"] "sp500" ["4h"] 0
             [] 0 "NASDAQ" "F" "4h" [EvQuery 1 "NYSE" "F" "4h"] 2 "AMEX" "F" "4h"
             [EvSleep (15 # 100); EvQuery 3 "NASDAQ" "MSFT" "4h"; EvSleep (15 # 100);
              EvWrite "tv_scan_sp500_4h.csv"
                [{| ticker := "MSFT"; tv_exchange := "NASDAQ"; tv_symbol := "MSFT";
                    rating := "BUY"; timeframe := "4h" |}];
              EvPrint "Wrote tv_scan_sp500_4h.csv with 1 tickers rated BUY/STRONG_BUY."]).
    + reflexivity.
    + simpl. intros [H|[]]. discriminate.
  - apply (proj2 unpaced_queries_share_identifier
             (Sample.crypto_world Sample.all_down)
             (Uncaught (KeyError "market_cap"))
             (snd (Crypto.top_500_4h (Sample.crypto_world Sample.all_down)))
             [] 0 "BINANCE" "ETHUSDT" "4h"
             (tl (snd (Crypto.top_500_4h (Sample.crypto_world Sample.all_down))))
             (ExternalError "timeout")).
    + reflexivity.
    + reflexivity.
    + reflexivity.
Defined.

(** ** A CSV without a ticker column *)

Lemma main_sp500_scanned (g : globals) (w : world) (a : args) (tfs : list string) tr1 n :
  main_sp500 g w a tfs = (Done, tr1, n) ->
  selected a "sp500" = true -> skip_sp500 a = false -> tfs <> [] ->
  scanned "sp500" tr1.
Proof.
  unfold main_sp500. intros H Hsel Hskip Htfs. rewrite Hsel, Hskip in H.
  cbn [andb negb] in H.
  destruct tfs as [|tf tfs]; [congruence|].
  assert (Hscan : forall sp said,
             (let sp := py_slice (start a) (end_ a) sp in
              let '(tr, n) := scan_universe g w sp "sp500" (tf :: tfs) 0 in
              (Done,
               said :: EvPrint (loaded_line a (List.length sp) " S&P 500 tickers") :: tr,
               n)) = (Done, tr1, n) ->
             scanned "sp500" tr1).
  { intros sp said. cbv zeta.
    destruct (scan_universe_writes g w (py_slice (start a) (end_ a) sp) "sp500"
                (tf :: tfs) 0 tf (or_introl eq_refl)) as [table Hw].
    destruct (scan_universe g w (py_slice (start a) (end_ a) sp) "sp500" (tf :: tfs) 0)
      as [tr m].
    intros Heq. inversion Heq; subst. exists tf, table. right. right. exact Hw. }
  destruct (nonempty (sp500_csv a)) as [path|].
  - destruct (read_sp500_csv w path) as [sp|e]; [|discriminate].
    cbv beta iota in H. eapply Hscan, H.
  - destruct (fetch_sp500 w) as [sp|e]; [|discriminate].
    cbv beta iota in H. eapply Hscan, H.
Qed.

(** C2, as stated, fails: [main] catches nothing, so the [RuntimeError] of
    the S&P 500 reader ends the run before the Russell 3000 CSV, although
    well formed, is even read. *)
Lemma c2_bad_sp500_csv_stops_russell :
  read_russell3000 (Sample.equity_world Sample.all_buy) "r3k.csv"
  = Ok ["AAPL"; "MSFT"] /\
  Equity.main (Sample.equity_world Sample.all_buy)
              (Sample.both_universes "sp_no_ticker.csv" "r3k.csv")
  = (Uncaught
       (RuntimeError "CSV must contain a 'ticker' or 'symbol' column for S&P 500."),
     [EvPrint "Loading S&P 500 from sp_no_ticker.csv..."]) /\
  ~ scanned "russell3000"
      (snd (Equity.main (Sample.equity_world Sample.all_buy)
                        (Sample.both_universes "sp_no_ticker.csv" "r3k.csv"))).
Proof.
  split; [reflexivity|]. split; [reflexivity|].
  intros (tf & table & [H|[]]). discriminate.
Qed.

(** C2, amended.  A supplied CSV without a ticker/symbol column makes its
    reader raise, and the run ends there.  For the S&P 500 file this is
    before anything is scanned, the Russell 3000 universe included.  For
    the Russell 3000 file it is after the S&P 500 block has run to its end,
    so the S&P 500 scan is not affected. *)
Theorem c2_malformed_csv_ends_run :
  (forall w a tfs path df,
      map_intervals (intervals a) = inr tfs ->
      selected a "sp500" = true -> skip_sp500 a = false ->
      nonempty (sp500_csv a) = Some path ->
      read_csv w path = Ok df -> find_column ticker_like df = None ->
      Equity.main w a
      = (Uncaught
           (RuntimeError "CSV must contain a 'ticker' or 'symbol' column for S&P 500."),
         [EvPrint ("Loading S&P 500 from " ++ path ++ "...")%string]) /\
      ~ scanned "russell3000" (snd (Equity.main w a))) /\
  (forall w a tfs path df tr1 n,
      map_intervals (intervals a) = inr tfs ->
      main_sp500 (run_globals a) w a tfs = (Done, tr1, n) ->
      selected a "r3000" = true ->
      nonempty (r3000_csv a) = Some path ->
      read_csv w path = Ok df -> find_column ticker_like df = None ->
      Equity.main w a
      = (Uncaught (RuntimeError "CSV must contain a 'ticker' or 'symbol' column."), tr1) /\
      (selected a "sp500" = true -> skip_sp500 a = false -> tfs <> [] ->
       scanned "sp500" (snd (Equity.main w a)))).
Proof.
  split.
  - intros w a tfs path df Htfs Hsel Hskip Hpath Hcsv Hcol.
    assert (Hmain : Equity.main w a
      = (Uncaught
           (RuntimeError "CSV must contain a 'ticker' or 'symbol' column for S&P 500."),
         [EvPrint ("Loading S&P 500 from " ++ path ++ "...")%string])).
    { unfold Equity.main, main_sp500, read_sp500_csv.
      now rewrite Htfs, Hsel, Hskip, Hpath, Hcsv, Hcol. }
    split; [exact Hmain|]. rewrite Hmain.
    intros (tf & table & [H|[]]). discriminate.
  - intros w a tfs path df tr1 n Htfs Hsp Hsel Hpath Hcsv Hcol.
    assert (Hmain : Equity.main w a
      = (Uncaught (RuntimeError "CSV must contain a 'ticker' or 'symbol' column."), tr1)).
    { unfold Equity.main. rewrite Htfs. cbv zeta. rewrite Hsp.
      unfold main_r3000, read_russell3000.
      rewrite Hsel, Hpath, Hcsv, Hcol. now rewrite app_nil_r. }
    split; [exact Hmain|]. rewrite Hmain. simpl.
    intros Hs Hk Hne. eapply main_sp500_scanned; eassumption.
Qed.

Lemma c2_witness :
  ~ scanned "russell3000"
      (snd (Equity.main (Sample.equity_world Sample.all_buy)
                        (Sample.both_universes "sp_no_ticker.csv" "r3k.csv"))) /\
  scanned "sp500"
      (snd (Equity.main (Sample.equity_world Sample.all_buy)
                        (Sample.both_universes "sp.csv" "r3k_no_ticker.csv"))).
Proof.
  split.
  - apply (proj1 c2_malformed_csv_ends_run
             (Sample.equity_world Sample.all_buy)
             (Sample.both_universes "sp_no_ticker.csv" "r3k.csv")
             ["4h"] "sp_no_ticker.csv"
             [("Name", ["Apple"; "Microsoft"]); ("Sector", ["Tech"; "Tech"])]);
      reflexivity.
  - apply (proj2 c2_malformed_csv_ends_run
             (Sample.equity_world Sample.all_buy)
             (Sample.both_universes "sp.csv" "r3k_no_ticker.csv")
             ["4h"] "r3k_no_ticker.csv" [("Company", ["Apple"])]
             (snd (fst (main_sp500
                          (run_globals (Sample.both_universes "sp.csv" "r3k_no_ticker.csv"))
                          (Sample.equity_world Sample.all_buy)
                          (Sample.both_universes "sp.csv" "r3k_no_ticker.csv") ["4h"])))
             2);
      try reflexivity.
    discriminate.
Defined.

(** * Further properties of the code *)

(** ** Spellings and venues of the candidate generator *)

Lemma mem_In (x : string) (l : list string) : PyStr.mem x l = true <-> In x l.
Proof.
  unfold PyStr.mem. rewrite existsb_exists. split.
  - intros (y & Hy & He). apply String.eqb_eq in He. now subst.
  - intros H. exists x. split; [exact H|apply String.eqb_refl].
Qed.

Lemma set_add_In (x y : string) (s : list string) :
  In y (set_add x s) <-> y = x \/ In y s.
Proof.
  unfold set_add. destruct (PyStr.mem x s) eqn:E.
  - apply mem_In in E. split; [now right|]. intros [->|H]; assumption.
  - rewrite in_app_iff. simpl. intuition.
Qed.

Lemma set_add_NoDup (x : string) (s : list string) : NoDup s -> NoDup (set_add x s).
Proof.
  intros H. unfold set_add. destruct (PyStr.mem x s) eqn:E; [exact H|].
  assert (Hx : ~ In x s) by (rewrite <- mem_In; congruence).
  apply NoDup_rev in H. rewrite <- (rev_involutive (s ++ [x])).
  apply NoDup_rev. rewrite rev_app_distr. simpl. constructor; [|exact H].
  now rewrite <- in_rev.
Qed.

Lemma candidates_of_set (g : globals) (w : world) (cands : list string) ex sym :
  set_order_ok (set_iter w) -> NoDup cands ->
  In (ex, sym)
     (flat_map (fun t => map (fun ex => (ex, t)) (EQUITY_EXCHANGES g)) (set_iter w cands))
  <-> In ex (EQUITY_EXCHANGES g) /\ In sym cands.
Proof.
  intros Hiter Hnd. rewrite in_flat_map. split.
  - intros (t & Ht & Hin). apply in_map_iff in Hin. destruct Hin as (e & He & Hex).
    inversion He; subst. split; [exact Hex|].
    eapply Permutation_in; [apply Permutation_sym, Hiter, Hnd|exact Ht].
  - intros [Hex Hs]. exists sym. split.
    + eapply Permutation_in; [apply Hiter, Hnd|exact Hs].
    + apply in_map_iff. now exists ex.
Qed.

Lemma candidates_spec (g : globals) (w : world) (ticker ex sym : string) :
  set_order_ok (set_iter w) ->
  (In (ex, sym) (tv_symbol_candidates g w ticker) <->
   In ex (EQUITY_EXCHANGES g) /\ spelling ticker sym).
Proof.
  intros Hiter. unfold tv_symbol_candidates, spelling.
  assert (H1 : NoDup [ticker]) by (constructor; [intros []|constructor]).
  destruct (PyStr.has_char "-" ticker) eqn:Hd, (PyStr.has_char "." ticker) eqn:Hp;
    rewrite candidates_of_set by (repeat apply set_add_NoDup; assumption);
    rewrite ?set_add_In; simpl; intuition congruence.
Qed.

(** X1.  Whatever the iteration order of the set, the pairs produced for a
    ticker are exactly the configured venues crossed with its spellings:
    the ticker itself, the ticker with every "-" turned into "." if it has
    a "-", and the ticker with every "." turned into "-" if it has a ".". *)
Theorem candidates_are_venues_times_spellings :
  forall g w ticker ex sym,
    set_order_ok (set_iter w) ->
    (In (ex, sym) (tv_symbol_candidates g w ticker) <->
     In ex (EQUITY_EXCHANGES g) /\ spelling ticker sym).
Proof.
  intros g w ticker ex sym Hiter. now apply candidates_spec.
Qed.

Lemma candidates_are_venues_times_spellings_witness :
  In ("NYSE", "BRK.B")
     (tv_symbol_candidates Equity.module_globals
        (Sample.equity_world_rev Sample.all_down) "BRK-B").
Proof.
  apply (candidates_are_venues_times_spellings Equity.module_globals
           (Sample.equity_world_rev Sample.all_down) "BRK-B" "NYSE" "BRK.B").
  - intros s _. apply Permutation_rev.
  - split; [simpl; auto|]. right. left. split; reflexivity.
Defined.

(** X2.  A ticker without "-" and "." has one candidate per venue, in venue
    order, whatever the iteration order of the set. *)
Theorem plain_ticker_one_candidate_per_venue :
  forall g w ticker,
    set_order_ok (set_iter w) ->
    PyStr.has_char "-" ticker = false -> PyStr.has_char "." ticker = false ->
    tv_symbol_candidates g w ticker = map (fun ex => (ex, ticker)) (EQUITY_EXCHANGES g).
Proof.
  intros g w ticker Hiter Hd Hp. unfold tv_symbol_candidates. rewrite Hd, Hp.
  assert (Hs : set_iter w [ticker] = [ticker]).
  { apply Permutation_length_1_inv, Hiter. constructor; [intros []|constructor]. }
  rewrite Hs. simpl. apply app_nil_r.
Qed.

Lemma plain_ticker_one_candidate_per_venue_witness :
  tv_symbol_candidates Equity.module_globals
    (Sample.equity_world_rev Sample.all_down) "AAPL"
  = [("NASDAQ", "AAPL"); ("NYSE", "AAPL"); ("AMEX", "AAPL")].
Proof.
  apply (plain_ticker_one_candidate_per_venue Equity.module_globals
           (Sample.equity_world_rev Sample.all_down) "AAPL").
  - intros s _. apply Permutation_rev.
  - reflexivity.
  - reflexivity.
Defined.

(** ** The alphabet of normalized identifiers *)

Lemma normalized_char (c : ascii) :
  Ascii.eqb c " " = false ->
  let d := PyStr.upper_char (if Ascii.eqb c "." || Ascii.eqb c "/" then "-"%char else c) in
  Ascii.eqb d " " = false /\ Ascii.eqb d "." = false /\ Ascii.eqb d "/" = false /\
  PyStr.upper_char d = d.
Proof.
  destruct c as [[] [] [] [] [] [] [] []]; intros H; try discriminate H;
    vm_compute; repeat split.
Qed.

Lemma normalize_alphabet (s : string) :
  PyStr.has_char "." (normalize s) = false /\
  PyStr.has_char "/" (normalize s) = false /\
  PyStr.has_char " " (normalize s) = false.
Proof.
  induction s as [|c s (H1 & H2 & H3)]; [repeat split|].
  rewrite normalize_cons. destruct (Ascii.eqb c " ") eqn:Hc; [auto|].
  destruct (normalized_char c Hc) as (Hs & Hp & Hl & _).
  cbn [PyStr.has_char]. rewrite Hs, Hp, Hl, H1, H2, H3. auto.
Qed.

(** X3.  Normalizing twice is normalizing once, and a normalized
    identifier contains no ".", no "/" and no blank. *)
Theorem normalize_idempotent :
  forall s,
    normalize (normalize s) = normalize s /\
    PyStr.has_char "." (normalize s) = false /\
    PyStr.has_char "/" (normalize s) = false /\
    PyStr.has_char " " (normalize s) = false.
Proof.
  intros s. split; [|apply normalize_alphabet].
  induction s as [|c s IH]; [reflexivity|].
  rewrite normalize_cons. destruct (Ascii.eqb c " ") eqn:Hc; [exact IH|].
  destruct (normalized_char c Hc) as (Hs & Hp & Hl & Hu).
  rewrite normalize_cons, Hs, Hp, Hl. simpl. now rewrite Hu, IH.
Qed.

(** X4.  For an identifier that comes out of a loader, at most two
    spellings are ever tried: the normalized identifier and, if it has a
    "-", the same with "." for every "-".  The branch for "." is dead after
    normalization. *)
Theorem loaded_ticker_spellings :
  forall g w cell ex sym,
    set_order_ok (set_iter w) ->
    In (ex, sym) (tv_symbol_candidates g w (normalize cell)) ->
    In ex (EQUITY_EXCHANGES g) /\
    (sym = normalize cell \/
     (PyStr.has_char "-" (normalize cell) = true /\
      sym = PyStr.replace "-" "." (normalize cell))).
Proof.
  intros g w cell ex sym Hiter Hin.
  apply candidates_spec in Hin; [|exact Hiter].
  destruct Hin as [Hex Hsp]. split; [exact Hex|].
  destruct Hsp as [H|[H|[H _]]]; auto.
  destruct (normalize_alphabet cell) as (Hp & _). congruence.
Qed.

Lemma loaded_ticker_spellings_witness :
  In "NYSE" (EQUITY_EXCHANGES Equity.module_globals) /\
  ("BRK.B" = normalize "brk.b" \/
   (PyStr.has_char "-" (normalize "brk.b") = true /\
    "BRK.B" = PyStr.replace "-" "." (normalize "brk.b"))).
Proof.
  apply (loaded_ticker_spellings Equity.module_globals
           (Sample.equity_world Sample.all_down) "brk.b" "NYSE" "BRK.B").
  - intros s _. apply Permutation_refl.
  - vm_compute. in_list.
Defined.

(** ** The interval flag *)

Lemma map_intervals_spec (tfs : list string) :
  match map_intervals tfs with
  | inl bad => In bad tfs /\ bad <> "4h" /\ bad <> "1w"
  | inr vs =>
      Forall (fun tf => tf = "4h" \/ tf = "1w") tfs /\
      vs = map (fun tf => if String.eqb tf "4h" then "4h" else "1W") tfs
  end.
Proof.
  induction tfs as [|tf tfs IH]; simpl; [split; constructor|].
  destruct (String.eqb_spec tf "4h") as [->|H4].
  - destruct (map_intervals tfs) as [bad|vs].
    + destruct IH as (Hin & Hb). split; [now right|exact Hb].
    + destruct IH as (Hall & ->). split; [constructor; auto|reflexivity].
  - destruct (String.eqb_spec tf "1w") as [->|H1].
    + destruct (map_intervals tfs) as [bad|vs].
      * destruct IH as (Hin & Hb). split; [now right|exact Hb].
      * destruct IH as (Hall & ->). split; [constructor; auto|reflexivity].
    + split; [now left|]. split; assumption.
Qed.

(** X5.  An interval other than "4h" and "1w" (the test is case sensitive)
    makes [main] print one line to stderr and exit with status 1 before any
    file is read or any request is made.  Otherwise "4h" is scanned as "4h"
    and "1w" as "1W", in the order given. *)
Theorem unsupported_interval_exits_first :
  (forall w a,
      (exists tf, In tf (intervals a) /\ tf <> "4h" /\ tf <> "1w") ->
      exists bad,
        In bad (intervals a) /\ bad <> "4h" /\ bad <> "1w" /\
        Equity.main w a
        = (Exit 1,
           [EvPrintErr
              ("Unsupported interval: " ++ bad ++ ". Choices are: ['4h', '1w']")%string])) /\
  (forall tfs,
      Forall (fun tf => tf = "4h" \/ tf = "1w") tfs ->
      map_intervals tfs
      = inr (map (fun tf => if String.eqb tf "4h" then "4h" else "1W") tfs)).
Proof.
  split.
  - intros w a (tf & Hin & H4 & H1). unfold Equity.main.
    pose proof (map_intervals_spec (intervals a)) as Hs.
    destruct (map_intervals (intervals a)) as [bad|vs].
    + destruct Hs as (Hb & Hb4 & Hb1). exists bad. auto.
    + destruct Hs as (Hall & _). rewrite Forall_forall in Hall.
      destruct (Hall tf Hin); contradiction.
  - intros tfs Hall. pose proof (map_intervals_spec tfs) as Hs.
    destruct (map_intervals tfs) as [bad|vs].
    + destruct Hs as (Hb & Hb4 & Hb1). rewrite Forall_forall in Hall.
      destruct (Hall bad Hb); contradiction.
    + now destruct Hs as (_ & ->).
Qed.

Lemma unsupported_interval_exits_first_witness :
  (exists bad,
      In bad ["4h"; "1W"] /\ bad <> "4h" /\ bad <> "1w" /\
      Equity.main (Sample.equity_world Sample.all_buy)
                  (Sample.with_intervals ["4h"; "1W"]
                     (Sample.both_universes "sp.csv" "r3k.csv"))
      = (Exit 1,
         [EvPrintErr
            ("Unsupported interval: " ++ bad ++ ". Choices are: ['4h', '1w']")%string])) /\
  map_intervals ["1w"; "4h"] = inr ["1W"; "4h"].
Proof.
  split.
  - apply (proj1 unsupported_interval_exits_first
             (Sample.equity_world Sample.all_buy)
             (Sample.with_intervals ["4h"; "1W"]
                (Sample.both_universes "sp.csv" "r3k.csv"))).
    exists "1W". split; [simpl; auto|]. split; discriminate.
  - apply (proj2 unsupported_interval_exits_first ["1w"; "4h"]).
    constructor; [now right|]. constructor; [now left|constructor].
Defined.

(** ** Sources of the S&P 500 list *)

Lemma first_tables_usable (w : world) (urls : list string) :
  forall init,
    (exists url t ts, In url urls /\ http_read_html w url = Ok (t :: ts)) ->
    truthy (first_tables w init urls) = true.
Proof.
  induction urls as [|u urls IH]; intros init (url & t & ts & Hin & Hget).
  - destruct Hin.
  - simpl. destruct (truthy (_try_read_html w u)) eqn:Htr; [exact Htr|].
    apply IH. destruct Hin as [->|Hin].
    + unfold _try_read_html in Htr. rewrite Hget in Htr. discriminate.
    + exists url, t, ts. auto.
Qed.

Lemma first_tables_unusable (w : world) (urls : list string) :
  forall init,
    truthy init = false ->
    (forall url, In url urls ->
                 match http_read_html w url with Ok (_ :: _) => False | _ => True end) ->
    truthy (first_tables w init urls) = false.
Proof.
  induction urls as [|u urls IH]; intros init Hinit Hall; simpl; [exact Hinit|].
  assert (Hu : truthy (_try_read_html w u) = false).
  { unfold _try_read_html. specialize (Hall u (or_introl eq_refl)).
    destruct (http_read_html w u) as [[|t ts]|e]; simpl; auto. contradiction. }
  rewrite Hu. apply IH; [exact Hu|]. intros url Hin. apply Hall. now right.
Qed.

Lemma first_tables_first_usable (w : world) (pre post : list string) (url : string)
    (t : DataFrame) (ts : list DataFrame) :
  (forall u, In u pre ->
             match http_read_html w u with Ok (_ :: _) => False | _ => True end) ->
  http_read_html w url = Ok (t :: ts) ->
  forall init, first_tables w init (pre ++ url :: post) = Some (t :: ts).
Proof.
  intros Hpre Hget. induction pre as [|u pre IH]; intros init; simpl.
  - unfold _try_read_html. now rewrite Hget.
  - assert (Hu : truthy (_try_read_html w u) = false).
    { unfold _try_read_html. specialize (Hpre u (or_introl eq_refl)).
      destruct (http_read_html w u) as [[|t' ts']|e]; simpl; auto. contradiction. }
    rewrite Hu. apply IH. intros u' Hin. apply Hpre. now right.
Qed.

(** X6.  [fetch_sp500] falls back to the CSV data set only when no page
    yields a table.  If the first page that yields tables has no
    Symbol/Ticker column in any of them, it raises, whatever the pages
    after it and the fallback hold: they are not looked at. *)
Theorem parsed_page_without_column_is_fatal :
  forall w pre url post t ts,
    wiki_urls = pre ++ url :: post ->
    (forall u, In u pre ->
               match http_read_html w u with Ok (_ :: _) => False | _ => True end) ->
    http_read_html w url = Ok (t :: ts) ->
    find_table (t :: ts) = None ->
    fetch_sp500 w
    = Raise (RuntimeError "Could not find a constituents table on Wikipedia page.").
Proof.
  intros w pre url post t ts Hurls Hpre Hget Hfind. unfold fetch_sp500.
  rewrite Hurls, (first_tables_first_usable w pre post url t ts Hpre Hget None).
  cbn [truthy negb]. cbv iota. now rewrite Hfind.
Qed.

Lemma parsed_page_without_column_is_fatal_witness :
  fetch_sp500 (Sample.only_second_page_has_symbols Sample.all_buy)
  = Raise (RuntimeError "Could not find a constituents table on Wikipedia page.") /\
  http_read_html (Sample.only_second_page_has_symbols Sample.all_buy)
    "https://en.wikipedia.org/wiki/List_of_S%26P_500_companies?oldformat=true"
  = Ok [[("Symbol", ["AAPL"; "MSFT"])]] /\
  http_read_csv (Sample.only_second_page_has_symbols Sample.all_buy) datahub_url
  = Ok [("Symbol", ["AAPL"; "BRK.B"])].
Proof.
  split; [|split; reflexivity].
  apply (parsed_page_without_column_is_fatal
           (Sample.only_second_page_has_symbols Sample.all_buy)
           [] "https://en.wikipedia.org/wiki/List_of_S%26P_500_companies"
           ["https://en.wikipedia.org/wiki/List_of_S%26P_500_companies?oldformat=true";
            "https://en.wikipedia.org/wiki/List_of_S%26P_500_companies?action=render"]
           [("Company", ["Apple"]); ("Sector", ["Tech"])] []).
  - reflexivity.
  - intros u [].
  - reflexivity.
  - reflexivity.
Defined.

(** X7.  When no page yields a table, the fallback CSV decides: its first
    column headed symbol/ticker/tickers (blanks and case aside) is
    normalized and returned, and every failure, a download error as well as
    a missing column, is reported as the same [RuntimeError]. *)
Theorem fallback_csv_decides :
  forall w,
    wiki_unusable w ->
    fetch_sp500 w
    = match http_read_csv w datahub_url with
      | Ok df =>
          match find_column exact_header df with
          | Some (_, cells) => Ok (map normalize cells)
          | None => Raise (RuntimeError "Failed to fetch S&P 500 list from all sources.")
          end
      | Raise _ => Raise (RuntimeError "Failed to fetch S&P 500 list from all sources.")
      end.
Proof.
  intros w Hw. unfold fetch_sp500.
  rewrite (first_tables_unusable w wiki_urls None eq_refl Hw). simpl.
  destruct (http_read_csv w datahub_url) as [df|e]; [|reflexivity].
  now destruct (find_column exact_header df) as [[c cells]|].
Qed.

Lemma fallback_csv_decides_witness :
  fetch_sp500 (Sample.fallback_only Sample.all_buy) = Ok ["AAPL"; "BRK-B"] /\
  fetch_sp500 (Sample.equity_world Sample.all_buy)
  = Raise (RuntimeError "Failed to fetch S&P 500 list from all sources.").
Proof.
  split.
  - apply (fallback_csv_decides (Sample.fallback_only Sample.all_buy)).
    intros url _. exact I.
  - apply (fallback_csv_decides (Sample.equity_world Sample.all_buy)).
    intros url _. exact I.
Defined.

Lemma find_column_first (p : string -> bool) (pre post : DataFrame) c cells :
  Forall (fun col => p (fst col) = false) pre -> p c = true ->
  find_column p (pre ++ (c, cells) :: post) = Some (c, cells).
Proof.
  intros Hpre Hc. unfold find_column.
  induction Hpre as [|col pre Hcol _ IH]; cbn [app find fst].
  - now rewrite Hc.
  - now rewrite Hcol.
Qed.

(** X8.  Both CSV readers take the first column whose header contains
    "ticker" or "symbol" (in any case) and ignore every later one; on a
    file with such a column they return the same list. *)
Theorem csv_readers_take_first_matching_column :
  forall w path pre c cells post,
    read_csv w path = Ok (pre ++ (c, cells) :: post) ->
    Forall (fun col => ticker_like (fst col) = false) pre ->
    ticker_like c = true ->
    read_sp500_csv w path = Ok (map normalize cells) /\
    read_russell3000 w path = Ok (map normalize cells).
Proof.
  intros w path pre c cells post Hcsv Hpre Hc.
  unfold read_sp500_csv, read_russell3000.
  now rewrite Hcsv, (find_column_first ticker_like pre post c cells Hpre Hc).
Qed.

Lemma csv_readers_take_first_matching_column_witness :
  read_sp500_csv (Sample.equity_world Sample.all_down) "sp_twice.csv"
  = Ok (map normalize ["AAPL"; "AAPL"]) /\
  read_russell3000 (Sample.equity_world Sample.all_down) "sp_twice.csv"
  = Ok (map normalize ["AAPL"; "AAPL"]).
Proof.
  apply (csv_readers_take_first_matching_column
           (Sample.equity_world Sample.all_down) "sp_twice.csv"
           [("Name", ["Apple"; "Apple"])] "Symbol" ["AAPL"; "AAPL"] []).
  - reflexivity.
  - repeat constructor.
  - reflexivity.
Defined.

(** ** Accounting of a scan: files, sleeps and queries *)

Lemma written_files_app (l1 l2 : list event) :
  written_files (l1 ++ l2) = written_files l1 ++ written_files l2.
Proof.
  induction l1 as [|[] l1 IH]; simpl; auto. now rewrite IH.
Qed.

Lemma count_queries_app (l1 l2 : list event) :
  count_queries (l1 ++ l2) = count_queries l1 + count_queries l2.
Proof.
  induction l1 as [|[] l1 IH]; simpl; auto.
Qed.

Lemma count_sleeps_app (l1 l2 : list event) :
  count_sleeps (l1 ++ l2) = count_sleeps l1 + count_sleeps l2.
Proof.
  induction l1 as [|[] l1 IH]; simpl; auto.
Qed.

Lemma probe_counts (w : world) (t tf : string) (cands : list (string * string)) :
  forall n r tr n',
    probe w t tf cands n = (r, tr, n') ->
    written_files tr = [] /\ count_sleeps tr = 0 /\
    count_queries tr = n' - n /\ n <= n' /\ n' - n <= List.length cands /\
    (cands <> [] -> n < n').
Proof.
  induction cands as [|[ex sym] cands IH]; intros n r tr n' H; simpl in H.
  - inversion H; subst. cbn [written_files count_sleeps count_queries List.length].
    repeat split; try lia. congruence.
  - destruct (get_tv_rating w n ex sym tf) as [lbl|].
    + destruct (buy_label lbl); inversion H; subst;
        cbn [written_files count_sleeps count_queries List.length];
        repeat split; intros; lia.
    + destruct (probe w t tf cands (S n)) as [[r0 tr0] n0] eqn:E.
      inversion H; subst. destruct (IH _ _ _ _ E) as (H1 & H2 & H3 & H4 & H5 & _).
      cbn [written_files count_sleeps count_queries List.length].
      repeat split; intros; auto; lia.
Qed.

Lemma shown_counts (label tf : string) (total i : nat) :
  written_files (shown label tf total i) = [] /\
  count_sleeps (shown label tf total i) = 0 /\
  count_queries (shown label tf total i) = 0.
Proof. unfold shown. destruct (i mod 25 =? 0); repeat split. Qed.

Lemma scan_tickers_counts (g : globals) (w : world) (label tf : string) (total : nat)
    (lo hi : nat) (tickers : list string) :
  (forall t, In t tickers ->
             lo <= List.length (tv_symbol_candidates g w t) <= hi) ->
  forall i n rows tr n',
    scan_tickers g w label tf total i tickers n = (rows, tr, n') ->
    written_files tr = [] /\ count_sleeps tr = List.length tickers /\
    count_queries tr = n' - n /\ n <= n' /\
    Nat.min 1 lo * List.length tickers <= n' - n <= hi * List.length tickers.
Proof.
  induction tickers as [|t rest IH]; intros Hb i n rows tr n' H; simpl in H.
  - inversion H; subst. simpl. repeat split; lia.
  - destruct (probe w t tf (tv_symbol_candidates g w t) n) as [[r1 tr1] n1] eqn:Ep.
    destruct (scan_tickers g w label tf total (S i) rest n1) as [[rows2 tr2] n2] eqn:Es.
    inversion H; subst.
    destruct (probe_counts _ _ _ _ _ _ _ _ Ep) as (P1 & P2 & P3 & P4 & P5 & P6).
    destruct (shown_counts label tf total i) as (S1 & S2 & S3).
    destruct (IH (fun t' Ht => Hb t' (or_intror Ht)) _ _ _ _ _ Es)
      as (I1 & I2 & I3 & I4 & I5 & I6).
    destruct (Hb t (or_introl eq_refl)) as [Hlo Hhi].
    rewrite !written_files_app, !count_sleeps_app, !count_queries_app.
    cbn [written_files count_sleeps count_queries List.length].
    rewrite P1, P2, P3, S1, S2, S3, I1, I2, I3.
    assert (Hmin : Nat.min 1 lo <= n1 - n).
    { destruct lo as [|lo]; [simpl; lia|].
      assert (n < n1) by (apply P6; intros E; rewrite E in Hlo; simpl in Hlo; lia).
      rewrite Nat.min_l by lia. lia. }
    repeat split; try reflexivity; nia.
Qed.

Lemma flat_map_const_length {A B C : Type} (f : A -> B -> C) (l : list A) (bs : list B) :
  List.length (flat_map (fun a => map (f a) bs) l) = List.length l * List.length bs.
Proof.
  induction l as [|a l IH]; simpl; [reflexivity|].
  now rewrite length_app, length_map, IH.
Qed.

Lemma set_add_length (x : string) (s : list string) :
  List.length s <= List.length (set_add x s) <= S (List.length s).
Proof.
  unfold set_add. destruct (PyStr.mem x s); [lia|].
  rewrite length_app. simpl. lia.
Qed.

Lemma candidates_length (g : globals) (w : world) (ticker : string) :
  set_order_ok (set_iter w) ->
  List.length (EQUITY_EXCHANGES g)
  <= List.length (tv_symbol_candidates g w ticker)
  <= 3 * List.length (EQUITY_EXCHANGES g).
Proof.
  intros Hiter. unfold tv_symbol_candidates.
  rewrite (flat_map_const_length (fun t ex => (ex, t))).
  assert (H1 : NoDup [ticker]) by (constructor; [intros []|constructor]).
  set (a := PyStr.replace "-" "." ticker). set (b := PyStr.replace "." "-" ticker).
  pose proof (set_add_length a [ticker]) as La.
  pose proof (set_add_length b [ticker]) as Lb.
  pose proof (set_add_length b (set_add a [ticker])) as Lab.
  cbn [List.length] in La, Lb.
  destruct (PyStr.has_char "-" ticker), (PyStr.has_char "." ticker);
    match goal with
    | |- context [set_iter w ?c] =>
        assert (Hnd : NoDup c) by (repeat apply set_add_NoDup; exact H1);
        rewrite <- (Permutation_length (Hiter c Hnd))
    end; cbn [List.length]; nia.
Qed.

Lemma scan_tickers_files (g : globals) (w : world) (label tf : string) (total : nat)
    (tickers : list string) :
  forall i n rows tr n',
    scan_tickers g w label tf total i tickers n = (rows, tr, n') ->
    written_files tr = [].
Proof.
  induction tickers as [|t rest IH]; intros i n rows tr n' H; simpl in H.
  - now inversion H.
  - destruct (probe w t tf (tv_symbol_candidates g w t) n) as [[r1 tr1] n1] eqn:Ep.
    destruct (scan_tickers g w label tf total (S i) rest n1) as [[rows2 tr2] n2] eqn:Es.
    inversion H; subst.
    destruct (probe_counts _ _ _ _ _ _ _ _ Ep) as (P1 & _).
    destruct (shown_counts label tf total i) as (S1 & _).
    rewrite !written_files_app. cbn [written_files].
    now rewrite P1, S1, (IH _ _ _ _ _ Es).
Qed.

(** X9.  A scan writes exactly one file per requested timeframe, in the
    order of the timeframes, whatever the service answers and even for an
    empty ticker list. *)
Theorem one_file_per_timeframe :
  forall g w tickers label intervals n,
    written_files (fst (scan_universe g w tickers label intervals n))
    = map (out_file_name label) intervals.
Proof.
  intros g w tickers label intervals. induction intervals as [|tf more IH]; intros n.
  - reflexivity.
  - simpl.
    destruct (scan_tickers g w label tf (List.length tickers) 1 tickers n)
      as [[rows tr] n1] eqn:Es.
    specialize (IH n1).
    destruct (scan_universe g w tickers label more n1) as [tr' n2].
    simpl in *. rewrite written_files_app. simpl. rewrite IH.
    now rewrite (scan_tickers_files _ _ _ _ _ _ _ _ _ _ _ Es).
Qed.

(** X10.  A scan sleeps exactly once per ticker and timeframe.  With V
    venues configured, every ticker costs at least one query (if V > 0) and
    at most 3 V queries per timeframe, so a scan of N tickers over T
    timeframes issues between N T and 3 V N T queries; the number of
    queries is the advance of the call counter. *)
Theorem scan_budget :
  forall g w tickers label intervals n,
    set_order_ok (set_iter w) ->
    let run := scan_universe g w tickers label intervals n in
    count_sleeps (fst run) = List.length tickers * List.length intervals /\
    count_queries (fst run) = snd run - n /\
    n <= snd run /\
    Nat.min 1 (List.length (EQUITY_EXCHANGES g))
      * List.length tickers * List.length intervals <= snd run - n /\
    snd run - n
      <= 3 * List.length (EQUITY_EXCHANGES g) * List.length tickers * List.length intervals.
Proof.
  intros g w tickers label intervals n Hiter. cbv zeta. revert n.
  induction intervals as [|tf more IH]; intros n.
  - cbn [scan_universe fst snd count_sleeps count_queries List.length].
    repeat split; lia.
  - cbn [scan_universe].
    destruct (scan_tickers g w label tf (List.length tickers) 1 tickers n)
      as [[rows tr] n1] eqn:Es.
    specialize (IH n1).
    destruct (scan_universe g w tickers label more n1) as [tr' n2].
    cbn [fst snd List.length] in *. destruct IH as (I1 & I2 & I3 & I4 & I5).
    destruct (scan_tickers_counts g w label tf (List.length tickers)
                (List.length (EQUITY_EXCHANGES g))
                (3 * List.length (EQUITY_EXCHANGES g)) tickers
                (fun t _ => candidates_length g w t Hiter) _ _ _ _ _ Es)
      as (H1 & H2 & H3 & H4 & H5 & H6).
    rewrite count_sleeps_app, count_queries_app.
    cbn [count_sleeps count_queries].
    rewrite H2, H3, I1, I2. repeat split; nia.
Qed.

Lemma scan_budget_witness :
  count_sleeps
    (fst (scan_universe Equity.module_globals (Sample.equity_world Sample.nyse_sells)
                        ["F"; "MSFT"] "sp500" ["4h"; "1W"] 0)) = 4 /\
  snd (scan_universe Equity.module_globals (Sample.equity_world Sample.nyse_sells)
                     ["F"; "MSFT"] "sp500" ["4h"; "1W"] 0) - 0 <= 36.
Proof.
  pose proof (scan_budget Equity.module_globals (Sample.equity_world Sample.nyse_sells)
                ["F"; "MSFT"] "sp500" ["4h"; "1W"] 0
                (fun s _ => Permutation_refl s)) as H.
  cbv zeta in H. destruct H as (H1 & _ & _ & _ & H5). split; [exact H1|exact H5].
Defined.

(** ** Where rows and sleeps come from *)

Lemma scan_tickers_mono (g : globals) (w : world) (label tf : string) (total : nat)
    (tickers : list string) :
  forall i n rows tr n',
    scan_tickers g w label tf total i tickers n = (rows, tr, n') -> n <= n'.
Proof.
  induction tickers as [|t rest IH]; intros i n rows tr n' H; simpl in H.
  - inversion H; lia.
  - destruct (probe w t tf (tv_symbol_candidates g w t) n) as [[r1 tr1] n1] eqn:Ep.
    destruct (scan_tickers g w label tf total (S i) rest n1) as [[rows2 tr2] n2] eqn:Es.
    inversion H; subst.
    destruct (probe_counts _ _ _ _ _ _ _ _ Ep) as (_ & _ & _ & P4 & _).
    specialize (IH _ _ _ _ _ Es). lia.
Qed.

Lemma scan_tickers_row_answer (g : globals) (w : world) (label tf : string) (total : nat)
    (tickers : list string) :
  forall i n rows tr n' r,
    scan_tickers g w label tf total i tickers n = (rows, tr, n') -> In r rows ->
    timeframe r = tf /\ In (ticker r) tickers /\
    In (tv_exchange r, tv_symbol r) (tv_symbol_candidates g w (ticker r)) /\
    buy_label (rating r) = true /\
    exists k, n <= k < n' /\
              get_tv_rating w k (tv_exchange r) (tv_symbol r) tf = Some (rating r).
Proof.
  induction tickers as [|t rest IH]; intros i n rows tr n' r H Hin; simpl in H.
  - inversion H; subst. destruct Hin.
  - destruct (probe w t tf (tv_symbol_candidates g w t) n) as [[r1 tr1] n1] eqn:Ep.
    destruct (scan_tickers g w label tf total (S i) rest n1) as [[rows2 tr2] n2] eqn:Es.
    inversion H; subst.
    pose proof (scan_tickers_mono _ _ _ _ _ _ _ _ _ _ _ Es) as Hm.
    destruct (probe_counts _ _ _ _ _ _ _ _ Ep) as (_ & _ & _ & P4 & _).
    apply in_app_or in Hin. destruct Hin as [Hin|Hin].
    + destruct r1 as [r1|]; simpl in Hin; [|destruct Hin]. destruct Hin as [<-|[]].
      destruct (probe_row _ _ _ _ _ _ _ _ Ep) as (H1 & H2 & H3 & H4 & k & Hk & H5).
      split; [exact H2|]. split; [rewrite H1; now left|].
      split; [rewrite H1; exact H3|]. split; [exact H4|].
      exists k. split; [lia|exact H5].
    + destruct (IH _ _ _ _ _ _ Es Hin) as (H1 & H2 & H3 & H4 & k & Hk & H5).
      split; [exact H1|]. split; [now right|]. split; [exact H3|]. split; [exact H4|].
      exists k. split; [lia|exact H5].
Qed.

Lemma scan_budget_mono (g : globals) (w : world) (tickers : list string)
    (label : string) (intervals : list string) :
  forall n, n <= snd (scan_universe g w tickers label intervals n).
Proof.
  induction intervals as [|tf more IH]; intros n; simpl; [lia|].
  destruct (scan_tickers g w label tf (List.length tickers) 1 tickers n)
    as [[rows tr] n1] eqn:Es.
  specialize (IH n1).
  pose proof (scan_tickers_mono _ _ _ _ _ _ _ _ _ _ _ Es).
  destruct (scan_universe g w tickers label more n1) as [tr' n2]. simpl in *. lia.
Qed.

(** X11.  Every row of a written table is backed by an answer the service
    gave during this scan: the row's timeframe is the one of the file, its
    ticker is in the scanned list, its exchange and symbol are a candidate
    of that ticker, and some call of the scan for exactly this exchange,
    symbol and timeframe was answered with the row's rating. *)
Theorem rows_are_backed_by_answers :
  forall g w tickers label intervals n f table r,
    In (EvWrite f table) (fst (scan_universe g w tickers label intervals n)) ->
    In r table ->
    exists tf k,
      In tf intervals /\ f = out_file_name label tf /\ timeframe r = tf /\
      In (ticker r) tickers /\
      In (tv_exchange r, tv_symbol r) (tv_symbol_candidates g w (ticker r)) /\
      n <= k < snd (scan_universe g w tickers label intervals n) /\
      get_tv_rating w k (tv_exchange r) (tv_symbol r) tf = Some (rating r).
Proof.
  intros g w tickers label intervals. induction intervals as [|tf more IH];
    intros n f table r Hw Hr; simpl in Hw; [destruct Hw|].
  simpl.
  destruct (scan_tickers g w label tf (List.length tickers) 1 tickers n)
    as [[rows tr] n1] eqn:Es.
  specialize (IH n1 f table r).
  pose proof (scan_tickers_mono _ _ _ _ _ _ _ _ _ _ _ Es) as Hm.
  pose proof (scan_budget_mono g w tickers label more n1) as Hm2.
  destruct (scan_universe g w tickers label more n1) as [tr' n2].
  simpl in *. apply in_app_or in Hw. destruct Hw as [Hw|[Hw|[Hw|Hw]]].
  - destruct (scan_tickers_trace _ _ _ _ _ _ _ _ _ _ _ _ Es Hw)
      as [(k & e & s & t & Hev & _)|[(line & Hev)|Hev]]; discriminate.
  - inversion Hw; subst.
    apply (Permutation_in _ (Permutation_sym (out_table_perm _))) in Hr.
    destruct (scan_tickers_row_answer _ _ _ _ _ _ _ _ _ _ _ _ Es Hr)
      as (H1 & H2 & H3 & _ & k & Hk & H5).
    exists tf, k. repeat split; auto; lia.
  - discriminate.
  - destruct (IH Hw Hr) as (tf' & k & H1 & H2 & H3 & H4 & H5 & Hk & H6).
    exists tf', k. repeat split; auto; lia.
Qed.

Lemma rows_are_backed_by_answers_witness :
  exists tf k,
    In tf ["4h"] /\ "tv_scan_sp500_4h.csv" = out_file_name "sp500" tf /\
    timeframe Sample.msft_strong_buy = tf /\
    In (ticker Sample.msft_strong_buy) ["MSFT"; "AAPL"] /\
    In (tv_exchange Sample.msft_strong_buy, tv_symbol Sample.msft_strong_buy)
       (tv_symbol_candidates Equity.module_globals (Sample.equity_world Sample.all_buy)
          (ticker Sample.msft_strong_buy)) /\
    0 <= k < snd (scan_universe Equity.module_globals (Sample.equity_world Sample.all_buy)
                                ["MSFT"; "AAPL"] "sp500" ["4h"] 0) /\
    get_tv_rating (Sample.equity_world Sample.all_buy) k
                  (tv_exchange Sample.msft_strong_buy)
                  (tv_symbol Sample.msft_strong_buy) tf
    = Some (rating Sample.msft_strong_buy).
Proof.
  apply (rows_are_backed_by_answers Equity.module_globals
           (Sample.equity_world Sample.all_buy) ["MSFT"; "AAPL"] "sp500" ["4h"] 0
           "tv_scan_sp500_4h.csv" [Sample.aapl_buy; Sample.msft_strong_buy]).
  - vm_compute. in_list.
  - simpl. auto.
Defined.

Lemma scan_universe_sleep (g : globals) (w : world) (tickers : list string)
    (label : string) (intervals : list string) :
  forall n d,
    In (EvSleep d) (fst (scan_universe g w tickers label intervals n)) ->
    d = SLEEP_BETWEEN_CALLS g.
Proof.
  induction intervals as [|tf more IH]; intros n d Hin; simpl in Hin; [destruct Hin|].
  destruct (scan_tickers g w label tf (List.length tickers) 1 tickers n)
    as [[rows tr] n1] eqn:Es.
  specialize (IH n1 d).
  destruct (scan_universe g w tickers label more n1) as [tr' n2].
  simpl in *. apply in_app_or in Hin. destruct Hin as [Hin|[Hin|[Hin|Hin]]];
    try discriminate; [|now apply IH].
  destruct (scan_tickers_trace _ _ _ _ _ _ _ _ _ _ _ _ Es Hin)
    as [(k & e & s & t & Hev & _)|[(line & Hev)|Hev]]; try discriminate.
  now inversion Hev.
Qed.

Lemma main_sp500_sleep (g : globals) (w : world) (a : args) (tfs : list string) (d : Q) :
  In (EvSleep d) (snd (fst (main_sp500 g w a tfs))) -> d = SLEEP_BETWEEN_CALLS g.
Proof.
  unfold main_sp500.
  destruct (selected a "sp500" && negb (skip_sp500 a)); [|intros []].
  assert (Hscan : forall sp said,
             In (EvSleep d)
                (snd (fst (let sp := py_slice (start a) (end_ a) sp in
                           let '(tr, n) := scan_universe g w sp "sp500" tfs 0 in
                           (Done,
                            said :: EvPrint (loaded_line a (List.length sp)
                                               " S&P 500 tickers") :: tr, n)))) ->
             said <> EvSleep d -> d = SLEEP_BETWEEN_CALLS g).
  { intros sp said. cbv zeta.
    pose proof (scan_universe_sleep g w (py_slice (start a) (end_ a) sp) "sp500" tfs 0 d)
      as Hs.
    destruct (scan_universe g w (py_slice (start a) (end_ a) sp) "sp500" tfs 0)
      as [tr m].
    simpl in *. intros [H|[H|H]] Hsaid; [congruence|discriminate|auto]. }
  destruct (nonempty (sp500_csv a)) as [path|].
  - destruct (read_sp500_csv w path) as [sp|e]; cbv beta iota.
    + intros H. eapply Hscan; [exact H|discriminate].
    + simpl. intros [H|[]]. discriminate.
  - destruct (fetch_sp500 w) as [sp|e]; cbv beta iota.
    + intros H. eapply Hscan; [exact H|discriminate].
    + simpl. intros [H|[]]. discriminate.
Qed.

Lemma main_r3000_sleep (g : globals) (w : world) (a : args) (tfs : list string)
    (n : nat) (d : Q) :
  In (EvSleep d) (snd (main_r3000 g w a tfs n)) -> d = SLEEP_BETWEEN_CALLS g.
Proof.
  unfold main_r3000. destruct (selected a "r3000"); [|intros []].
  destruct (nonempty (r3000_csv a)) as [path|].
  - destruct (read_russell3000 w path) as [r3k|e]; [|intros []]. cbv zeta.
    pose proof (scan_universe_sleep g w (py_slice (start a) (end_ a) r3k)
                  "russell3000" tfs n d) as Hs.
    destruct (scan_universe g w (py_slice (start a) (end_ a) r3k) "russell3000" tfs n)
      as [tr m].
    simpl in *. intros [H|H]; [discriminate|auto].
  - simpl. intros [H|[]]. discriminate.
Qed.

(** X12.  The [--sleep] flag governs every pause of a run: whatever [main]
    sleeps, it sleeps for the duration given on the command line, never for
    the module default. *)
Theorem sleep_flag_governs_every_pause :
  forall w a d, In (EvSleep d) (snd (Equity.main w a)) -> d = sleep a.
Proof.
  intros w a d. unfold Equity.main.
  destruct (map_intervals (intervals a)) as [bad|tfs].
  - simpl. intros [H|[]]. discriminate.
  - cbv zeta.
    pose proof (main_sp500_sleep (run_globals a) w a tfs d) as H1.
    destruct (main_sp500 (run_globals a) w a tfs) as [[o tr1] n].
    pose proof (main_r3000_sleep (run_globals a) w a tfs n d) as H2.
    destruct o; [|simpl in *; auto|simpl in *; auto].
    destruct (main_r3000 (run_globals a) w a tfs n) as [o2 tr2].
    simpl in *. intros Hin. apply in_app_or in Hin. destruct Hin; auto.
Qed.

Lemma sleep_flag_governs_every_pause_witness :
  (1 # 2)%Q
  = sleep (Sample.with_intervals ["4h"] (Sample.both_universes "sp.csv" "r3k.csv")).
Proof.
  apply (sleep_flag_governs_every_pause (Sample.equity_world Sample.all_buy)
           (Sample.with_intervals ["4h"] (Sample.both_universes "sp.csv" "r3k.csv"))).
  vm_compute. in_list.
Defined.

(** ** When nothing is rated buy *)

Lemma coin_probe_never_buy (w : Crypto.world) (c : Crypto.coin)
    (cands : list (string * string)) :
  Crypto.never_buy w -> forall n, fst (fst (Crypto.probe w c cands n)) = None.
Proof.
  intros Hnb. induction cands as [|[ex sym] cands IH]; intros n; simpl; [reflexivity|].
  specialize (Hnb n sym ex).
  destruct (Crypto.ta w n sym ex "crypto" Crypto.INTERVAL_4_HOURS) as [sm|e].
  - now rewrite Hnb.
  - specialize (IH (S n)).
    now destruct (Crypto.probe w c cands (S n)) as [[r tr] n'].
Qed.

Lemma scan_coins_never_buy (w : Crypto.world) (coins : list Crypto.coin) :
  Crypto.never_buy w -> forall n, fst (fst (Crypto.scan_coins w coins n)) = [].
Proof.
  intros Hnb. induction coins as [|c rest IH]; intros n; [reflexivity|].
  rewrite scan_coins_cons.
  pose proof (coin_probe_never_buy w c (Crypto.tv_symbols (Crypto.coin_symbol c)) Hnb n)
    as Hp.
  destruct (Crypto.probe w c (Crypto.tv_symbols (Crypto.coin_symbol c)) n)
    as [[r tr1] n1].
  specialize (IH n1). destruct (Crypto.scan_coins w rest n1) as [[rows tr2] n2].
  simpl in *. now subst.
Qed.

Lemma no_buy_tables_empty (g : globals) (w : world) (tickers : list string)
    (label : string) (intervals : list string) (n : nat) f table :
  (forall k e s tf lbl, get_tv_rating w k e s tf = Some lbl -> buy_label lbl = false) ->
  In (EvWrite f table) (fst (scan_universe g w tickers label intervals n)) ->
  table = [].
Proof.
  intros Hnb Hw. destruct table as [|r table]; [reflexivity|]. exfalso.
  apply scan_universe_written in Hw. destruct Hw as (tf' & m & _ & _ & Ht).
  assert (Hr : In r (out_table (fst (fst (scan_tickers g w label tf'
                       (List.length tickers) 1 tickers m)))))
    by (rewrite <- Ht; now left).
  apply (Permutation_in _ (Permutation_sym (out_table_perm _))) in Hr.
  destruct (scan_tickers g w label tf' (List.length tickers) 1 tickers m)
    as [[rows tr] m'] eqn:Es. simpl in Hr.
  destruct (scan_tickers_row_answer _ _ _ _ _ _ _ _ _ _ _ _ Es Hr)
    as (_ & _ & _ & Hb & k & _ & Hans).
  specialize (Hnb _ _ _ _ _ Hans). congruence.
Qed.

(** X13.  The two scripts differ when nothing is rated BUY or STRONG_BUY.
    The equity scanner still writes the file of every timeframe, each with
    an empty table, and no other table.  The crypto script sorts a frame
    that has no "market_cap" column: once both pages are loaded it ends
    with [KeyError] and writes no file. *)
Theorem nothing_rated_buy :
  (forall g w tickers label intervals n,
      (forall k e s tf lbl, get_tv_rating w k e s tf = Some lbl -> buy_label lbl = false) ->
      (forall tf, In tf intervals ->
                  In (EvWrite (out_file_name label tf) [])
                     (fst (scan_universe g w tickers label intervals n))) /\
      (forall f table,
          In (EvWrite f table) (fst (scan_universe g w tickers label intervals n)) ->
          table = [])) /\
  (forall w coins,
      Crypto.never_buy w -> Crypto.cg w = Ok coins ->
      fst (Crypto.top_500_4h w) = Uncaught (KeyError "market_cap") /\
      forall f table, ~ In (Crypto.EvWrite f table) (snd (Crypto.top_500_4h w))).
Proof.
  split.
  - intros g w tickers label intervals n Hnb. split.
    + intros tf Htf.
      destruct (scan_universe_writes g w tickers label intervals n tf Htf) as [table Hw].
      now rewrite <- (no_buy_tables_empty g w tickers label intervals n _ table Hnb Hw).
    + intros f table. now apply no_buy_tables_empty.
  - intros w coins Hnb Hcg. unfold Crypto.top_500_4h. rewrite Hcg.
    pose proof (scan_coins_never_buy w coins Hnb 0) as Hrows.
    destruct (Crypto.scan_coins w coins 0) as [[rows tr] n] eqn:Es.
    simpl in Hrows. subst rows. simpl. split; [reflexivity|].
    intros f table. eapply scan_coins_trace; eassumption.
Qed.

Lemma nothing_rated_buy_witness :
  In (EvWrite "tv_scan_sp500_4h.csv" [])
     (fst (scan_universe Equity.module_globals (Sample.equity_world Sample.all_sell)
                         ["F"; "MSFT"] "sp500" ["4h"; "1W"] 0)) /\
  In (EvWrite "tv_scan_sp500_1W.csv" [])
     (fst (scan_universe Equity.module_globals (Sample.equity_world Sample.all_sell)
                         ["F"; "MSFT"] "sp500" ["4h"; "1W"] 0)) /\
  fst (Crypto.top_500_4h (Sample.crypto_world Sample.all_down))
  = Uncaught (KeyError "market_cap").
Proof.
  assert (Hnb : forall k e s tf lbl,
             get_tv_rating (Sample.equity_world Sample.all_sell) k e s tf = Some lbl ->
             buy_label lbl = false).
  { intros k e s tf lbl H. vm_compute in H. inversion H. reflexivity. }
  split; [|split].
  - apply (proj1 (proj1 nothing_rated_buy Equity.module_globals
                    (Sample.equity_world Sample.all_sell)
                    ["F"; "MSFT"] "sp500" ["4h"; "1W"] 0 Hnb) "4h").
    simpl. auto.
  - apply (proj1 (proj1 nothing_rated_buy Equity.module_globals
                    (Sample.equity_world Sample.all_sell)
                    ["F"; "MSFT"] "sp500" ["4h"; "1W"] 0 Hnb) "1W").
    simpl. auto.
  - apply (proj2 nothing_rated_buy (Sample.crypto_world Sample.all_down)
             [Sample.eth; Sample.btc]).
    + intros n symbol exchange. exact I.
    + reflexivity.
Defined.

(** ** The candidate loop of the crypto script *)

Lemma coin_probe_all_fail (w : Crypto.world) (c : Crypto.coin)
    (cands : list (string * string)) :
  forall n, Crypto.all_fail w cands n = true ->
            Crypto.probe w c cands n
            = (None, Crypto.failed_queries n cands, n + List.length cands).
Proof.
  induction cands as [|[ex sym] cands IH]; intros n H; simpl in *.
  - now rewrite Nat.add_0_r.
  - destruct (Crypto.ta w n sym ex "crypto" Crypto.INTERVAL_4_HOURS); [discriminate|].
    rewrite (IH _ H). now rewrite Nat.add_succ_r.
Qed.

(** X14.  In the crypto script the venues of a coin are asked in the fixed
    order of [tv_symbols], each failure being followed by a pause, until
    one answers; the coin gets a row only if that first answer is BUY or
    STRONG_BUY, and the venues after it are never asked.  If all fail, the
    coin is dropped after every venue was asked. *)
Theorem coin_probing_stops_at_first_answer :
  (forall w c pre ex tvsym post n r,
      Crypto.all_fail w pre n = true ->
      Crypto.ta w (n + List.length pre) tvsym ex "crypto" Crypto.INTERVAL_4_HOURS = Ok r ->
      Crypto.probe w c (pre ++ (ex, tvsym) :: post) n
      = ((if buy_label (Crypto.recommendation r)
          then Some {| Crypto.name := Crypto.coin_name c;
                       Crypto.symbol := PyStr.upper (Crypto.coin_symbol c);
                       Crypto.tv_exchange := ex; Crypto.tv_symbol := tvsym;
                       Crypto.market_cap := Crypto.coin_market_cap c;
                       Crypto.rating_4h := Crypto.recommendation r |}
          else None),
         Crypto.failed_queries n pre
           ++ [Crypto.EvQuery (n + List.length pre) ex tvsym Crypto.INTERVAL_4_HOURS],
         S (n + List.length pre))) /\
  (forall w c cands n,
      Crypto.all_fail w cands n = true ->
      Crypto.probe w c cands n
      = (None, Crypto.failed_queries n cands, n + List.length cands)).
Proof.
  split; [|exact coin_probe_all_fail].
  intros w c pre ex tvsym post. induction pre as [|[e s] pre IH]; intros n r Hpre Hans;
    simpl in *.
  - rewrite Nat.add_0_r in Hans. rewrite Hans. now rewrite Nat.add_0_r.
  - destruct (Crypto.ta w n s e "crypto" Crypto.INTERVAL_4_HOURS); [discriminate|].
    rewrite Nat.add_succ_r in Hans. rewrite (IH (S n) r Hpre Hans).
    now rewrite Nat.add_succ_r.
Qed.

Lemma coin_probing_stops_at_first_answer_witness :
  Crypto.probe (Sample.crypto_world Sample.bybit_sells) Sample.btc
               (Crypto.tv_symbols "btc") 0
  = (None,
     [Crypto.EvQuery 0 "BINANCE" "BTCUSDT" "4h"; Crypto.EvSleep (2 # 10);
      Crypto.EvQuery 1 "BYBIT" "BTCUSDT" "4h"], 2) /\
  Crypto.probe (Sample.crypto_world Sample.all_down) Sample.btc
               [("BINANCE", "BTCUSDT")] 0
  = (None, [Crypto.EvQuery 0 "BINANCE" "BTCUSDT" "4h"; Crypto.EvSleep (2 # 10)], 1).
Proof.
  split.
  - apply (proj1 coin_probing_stops_at_first_answer
             (Sample.crypto_world Sample.bybit_sells) Sample.btc
             [("BINANCE", "BTCUSDT")] "BYBIT" "BTCUSDT"
             [("COINBASE", "BTCUSD"); ("KRAKEN", "BTCUSD")] 0
             [("RECOMMENDATION", "SELL"); ("BUY", "12"); ("SELL", "3"); ("NEUTRAL", "11")]);
      reflexivity.
  - apply (proj2 coin_probing_stops_at_first_answer
             (Sample.crypto_world Sample.all_down) Sample.btc
             [("BINANCE", "BTCUSDT")] 0).
    reflexivity.
Defined.

(** X15.  A summary without a RECOMMENDATION entry is handled differently
    by the two scripts.  The equity scanner reads it as unavailable and
    goes on to the next candidate; the crypto script reads it as the label
    "" and stops probing the coin, without a row. *)
Theorem summary_without_recommendation :
  (forall w t tf ex sym rest n summary,
      Equity.ta w n sym ex "america" tf = Ok summary ->
      dict_get summary "RECOMMENDATION" = None ->
      Equity.probe w t tf ((ex, sym) :: rest) n
      = (let '(r, tr, n') := Equity.probe w t tf rest (S n) in
         (r, EvQuery n ex sym tf :: tr, n'))) /\
  (forall w c ex tvsym rest n summary,
      Crypto.ta w n tvsym ex "crypto" Crypto.INTERVAL_4_HOURS = Ok summary ->
      dict_get summary "RECOMMENDATION" = None ->
      Crypto.probe w c ((ex, tvsym) :: rest) n
      = (None, [Crypto.EvQuery n ex tvsym Crypto.INTERVAL_4_HOURS], S n)).
Proof.
  split.
  - intros w t tf ex sym rest n summary Hta Hkey. simpl.
    unfold get_tv_rating, try_get_analysis. now rewrite Hta, Hkey.
  - intros w c ex tvsym rest n summary Hta Hkey. simpl.
    rewrite Hta. unfold Crypto.recommendation. now rewrite Hkey.
Qed.

Lemma summary_without_recommendation_witness :
  Equity.probe (Sample.equity_world Sample.nasdaq_no_verdict) "F" "4h"
               [("NASDAQ", "F"); ("NYSE", "F")] 0
  = (Some {| ticker := "F"; tv_exchange := "NYSE"; tv_symbol := "F";
             rating := "BUY"; timeframe := "4h" |},
     [EvQuery 0 "NASDAQ" "F" "4h"; EvQuery 1 "NYSE" "F" "4h"], 2) /\
  Crypto.probe (Sample.crypto_world Sample.no_verdict) Sample.btc
               [("BINANCE", "BTCUSDT"); ("BYBIT", "BTCUSDT")] 0
  = (None, [Crypto.EvQuery 0 "BINANCE" "BTCUSDT" "4h"], 1).
Proof.
  split.
  - apply (proj1 summary_without_recommendation
             (Sample.equity_world Sample.nasdaq_no_verdict) "F" "4h"
             "NASDAQ" "F" [("NYSE", "F")] 0 [("BUY", "12")]); reflexivity.
  - apply (proj2 summary_without_recommendation
             (Sample.crypto_world Sample.no_verdict) Sample.btc
             "BINANCE" "BTCUSDT" [("BYBIT", "BTCUSDT")] 0
             [("BUY", "12"); ("SELL", "3")]); reflexivity.
Defined.

(** ** Slicing the universe *)











(** The set order matters: with a service that rates "BRK-B" SELL and
    "BRK.B" BUY at any time, a run that iterates sets in insertion order
    writes no row for the ticker "BRK-B" and a run that iterates them in
    reverse order writes one. *)
Lemma set_order_changes_the_table :
  stationary (Sample.equity_world Sample.dash_sells_dot_buys) /\
  stationary (Sample.equity_world_rev Sample.dash_sells_dot_buys) /\
  table_of Equity.module_globals (Sample.equity_world Sample.dash_sells_dot_buys)
           ["BRK-B"] "sp500" "4h" 0 = [] /\
  table_of Equity.module_globals (Sample.equity_world_rev Sample.dash_sells_dot_buys)
           ["BRK-B"] "sp500" "4h" 0
  = [{| ticker := "BRK-B"; tv_exchange := "NASDAQ"; tv_symbol := "BRK.B";
        rating := "BUY"; timeframe := "4h" |}].
Proof.
  split; [intros n m sy ex sc iv; reflexivity|].
  split; [intros n m sy ex sc iv; reflexivity|].
  split; reflexivity.
Qed.

(** X18.  The pages are tried in the order of the list and the first one
    that yields a table is used: the later pages and the fallback CSV have
    no influence, and the result is the normalized first Symbol/Ticker
    column of the first table that has one. *)
Theorem first_usable_page_wins :
  forall w pre url post t ts c cells,
    wiki_urls = pre ++ url :: post ->
    (forall u, In u pre ->
               match http_read_html w u with Ok (_ :: _) => False | _ => True end) ->
    http_read_html w url = Ok (t :: ts) ->
    find_table (t :: ts) = Some (c, cells) ->
    fetch_sp500 w = Ok (map normalize cells).
Proof.
  intros w pre url post t ts c cells Hurls Hpre Hget Hfind.
  assert (Hft : forall init, truthy init = false ->
                  first_tables w init (pre ++ url :: post) = Some (t :: ts)).
  { clear Hurls. induction pre as [|u pre IH]; intros init Hinit; simpl.
    - unfold _try_read_html. now rewrite Hget.
    - assert (Hu : truthy (_try_read_html w u) = false).
      { unfold _try_read_html. specialize (Hpre u (or_introl eq_refl)).
        destruct (http_read_html w u) as [[|t' ts']|e]; simpl; auto. contradiction. }
      rewrite Hu. apply IH; [|exact Hu]. intros u' Hin. apply Hpre. now right. }
  unfold fetch_sp500. rewrite Hurls, (Hft None eq_refl).
  cbn [truthy negb]. cbv iota. now rewrite Hfind.
Qed.

Lemma first_usable_page_wins_witness :
  fetch_sp500
    {| Equity.ta := Sample.all_down;
       Equity.http_read_html :=
         fun url =>
           if String.eqb url
                "https://en.wikipedia.org/wiki/List_of_S%26P_500_companies?oldformat=true"
           then Ok [[("Rank", ["1"])]; [(" Symbol ", ["brk.b"; "bf b"])]]
           else Raise (ExternalError "403");
       Equity.http_read_csv := Sample.offline;
       Equity.read_csv := Sample.files;
       Equity.set_iter := fun s => s |}
  = Ok (map normalize ["brk.b"; "bf b"]).
Proof.
  apply (first_usable_page_wins _
           ["https://en.wikipedia.org/wiki/List_of_S%26P_500_companies"]
           "https://en.wikipedia.org/wiki/List_of_S%26P_500_companies?oldformat=true"
           ["https://en.wikipedia.org/wiki/List_of_S%26P_500_companies?action=render"]
           [("Rank", ["1"])] [[(" Symbol ", ["brk.b"; "bf b"])]] " Symbol ").
  - reflexivity.
  - intros u [<-|[]]. exact I.
  - reflexivity.
  - reflexivity.
Defined.

(** ** Symbols and budget of the crypto script *)

Lemma has_char_app (c : ascii) (s t : string) :
  PyStr.has_char c (s ++ t) = PyStr.has_char c s || PyStr.has_char c t.
Proof.
  induction s as [|d s IH]; simpl; [reflexivity|]. now rewrite IH, orb_assoc.
Qed.

Lemma has_char_drop (c : ascii) (p : ascii -> bool) (s : string) :
  PyStr.has_char c s = false -> PyStr.has_char c (PyStr.drop_chars p s) = false.
Proof.
  induction s as [|d s IH]; simpl; [reflexivity|].
  rewrite orb_false_iff. intros [Hd Hs]. destruct (p d); simpl; [auto|].
  now rewrite Hd, IH.
Qed.

Lemma upper_char_idempotent (c : ascii) :
  PyStr.upper_char (PyStr.upper_char c) = PyStr.upper_char c.
Proof. destruct c as [[] [] [] [] [] [] [] []]; reflexivity. Qed.

Lemma upper_idempotent (s : string) : PyStr.upper (PyStr.upper s) = PyStr.upper s.
Proof.
  unfold PyStr.upper. induction s as [|c s IH]; simpl; [reflexivity|].
  now rewrite upper_char_idempotent, IH.
Qed.

(** X19.  The TradingView symbols built for a coin never contain "." or
    "-", whatever the coin's symbol, and they do not depend on the case of
    the coin's symbol. *)
Theorem coin_symbols_are_plain :
  forall symbol,
    (forall ex tvsym,
        In (ex, tvsym) (Crypto.tv_symbols symbol) ->
        PyStr.has_char "." tvsym = false /\ PyStr.has_char "-" tvsym = false) /\
    Crypto.tv_symbols (PyStr.upper symbol) = Crypto.tv_symbols symbol.
Proof.
  intros symbol. split.
  - assert (Hb : PyStr.has_char "." (Crypto.tv_base symbol) = false /\
                 PyStr.has_char "-" (Crypto.tv_base symbol) = false).
    { unfold Crypto.tv_base. split; [|apply remove_has_char].
      apply has_char_drop, remove_has_char. }
    destruct Hb as [Hp Hd].
    intros ex tvsym Hin. unfold Crypto.tv_symbols in Hin. cbv zeta in Hin.
    destruct Hin as [H|[H|[H|[H|[]]]]]; inversion H; subst;
      rewrite !has_char_app, Hp, Hd; split; reflexivity.
  - unfold Crypto.tv_symbols, Crypto.tv_base. now rewrite upper_idempotent.
Qed.

Lemma coin_symbols_are_plain_witness :
  PyStr.has_char "." "BRKBUSDT" = false /\ PyStr.has_char "-" "BRKBUSDT" = false.
Proof.
  apply (proj1 (coin_symbols_are_plain "brk.b") "BYBIT" "BRKBUSDT").
  vm_compute. in_list.
Defined.

Lemma count_coin_queries_app (l1 l2 : list Crypto.event) :
  Crypto.count_queries (l1 ++ l2) = Crypto.count_queries l1 + Crypto.count_queries l2.
Proof.
  induction l1 as [|[] l1 IH]; simpl; auto.
Qed.

Lemma coin_probe_counts (w : Crypto.world) (c : Crypto.coin)
    (cands : list (string * string)) :
  forall n r tr n',
    Crypto.probe w c cands n = (r, tr, n') ->
    Crypto.count_queries tr = n' - n /\ n <= n' /\ n' - n <= List.length cands /\
    (cands <> [] -> n < n').
Proof.
  induction cands as [|[ex sym] cands IH]; intros n r tr n' H; simpl in H.
  - inversion H; subst. cbn [Crypto.count_queries List.length].
    repeat split; try lia. congruence.
  - destruct (Crypto.ta w n sym ex "crypto" Crypto.INTERVAL_4_HOURS) as [sm|e].
    + inversion H; subst. cbn [Crypto.count_queries List.length].
      repeat split; intros; lia.
    + destruct (Crypto.probe w c cands (S n)) as [[r0 tr0] n0] eqn:E.
      inversion H; subst. destruct (IH _ _ _ _ E) as (H1 & H2 & H3 & _).
      cbn [Crypto.count_queries List.length]. repeat split; intros; lia.
Qed.

(** X20.  The crypto script asks about every coin at least once and at
    most four times: over N coins it issues between N and 4 N queries, and
    the number of queries is the advance of the call counter. *)
Theorem coin_scan_budget :
  forall w coins n,
    let run := Crypto.scan_coins w coins n in
    Crypto.count_queries (snd (fst run)) = snd run - n /\
    n <= snd run /\
    List.length coins <= snd run - n <= 4 * List.length coins.
Proof.
  intros w coins. cbv zeta. induction coins as [|c rest IH]; intros n.
  - cbn [Crypto.scan_coins fst snd Crypto.count_queries List.length]. lia.
  - rewrite scan_coins_cons.
    destruct (Crypto.probe w c (Crypto.tv_symbols (Crypto.coin_symbol c)) n)
      as [[r tr1] n1] eqn:Ep.
    specialize (IH n1).
    destruct (Crypto.scan_coins w rest n1) as [[rows tr2] n2].
    cbn [fst snd List.length] in *.
    destruct (coin_probe_counts _ _ _ _ _ _ _ Ep) as (P1 & P2 & P3 & P4).
    assert (n < n1) by (apply P4; discriminate).
    change (List.length (Crypto.tv_symbols (Crypto.coin_symbol c))) with 4 in P3.
    rewrite count_coin_queries_app, P1. lia.
Qed.

(** ** Column headers *)

Lemma prefix_app (x a t : string) :
  String.prefix x a = true -> String.prefix x (a ++ t) = true.
Proof.
  revert a. induction x as [|c x IH]; intros a H; [now destruct (a ++ t)%string|].
  destruct a as [|d a]; simpl in *; [discriminate|].
  destruct (Ascii.ascii_dec c d); [|discriminate]. now apply IH.
Qed.

Lemma contains_app (x a t : string) :
  PyStr.contains x a = true -> PyStr.contains x (a ++ t) = true.
Proof.
  induction a as [|d a IH]; intros H.
  - simpl in H. rewrite orb_false_r in H.
    destruct x as [|c x]; [|discriminate H]. now destruct t.
  - cbn [PyStr.contains] in H. apply orb_true_iff in H.
    change ((String d a ++ t)%string) with (String d (a ++ t)%string).
    cbn [PyStr.contains]. apply orb_true_iff. destruct H as [H|H].
    + left. now apply (prefix_app x (String d a) t).
    + right. now apply IH.
Qed.

Lemma rstrip_is_prefix (s : string) : exists t, s = (PyStr.rstrip s ++ t)%string.
Proof.
  induction s as [|c s [t Ht]]; [now exists ""|]. simpl.
  destruct (PyStr.rstrip s) as [|d r] eqn:E.
  - destruct (PyStr.is_space c).
    + now exists (String c s).
    + exists s. reflexivity.
  - exists t. simpl. now rewrite Ht at 1.
Qed.

Lemma contains_strip (x s : string) :
  PyStr.contains x (PyStr.strip s) = true -> PyStr.contains x s = true.
Proof.
  unfold PyStr.strip. intros H.
  assert (Hl : PyStr.contains x (PyStr.lstrip s) = true).
  { destruct (rstrip_is_prefix (PyStr.lstrip s)) as [t Ht]. rewrite Ht.
    now apply contains_app. }
  clear H. induction s as [|c s IH]; [exact Hl|].
  cbn [PyStr.lstrip] in Hl. destruct (PyStr.is_space c); [|exact Hl].
  cbn [PyStr.contains]. apply orb_true_iff. right. now apply IH.
Qed.

Lemma is_space_lower (c : ascii) : PyStr.is_space (PyStr.lower_char c) = PyStr.is_space c.
Proof. destruct c as [[] [] [] [] [] [] [] []]; reflexivity. Qed.

Lemma lower_lstrip (s : string) :
  PyStr.lower (PyStr.lstrip s) = PyStr.lstrip (PyStr.lower s).
Proof.
  unfold PyStr.lower. induction s as [|c s IH]; [reflexivity|].
  cbn [PyStr.lstrip PyStr.map_chars]. rewrite is_space_lower.
  destruct (PyStr.is_space c); [exact IH|reflexivity].
Qed.

Lemma lower_rstrip (s : string) :
  PyStr.lower (PyStr.rstrip s) = PyStr.rstrip (PyStr.lower s).
Proof.
  unfold PyStr.lower. induction s as [|c s IH]; [reflexivity|].
  cbn [PyStr.rstrip PyStr.map_chars]. rewrite <- IH, is_space_lower.
  destruct (PyStr.rstrip s) as [|d r]; cbn [PyStr.map_chars].
  - now destruct (PyStr.is_space c).
  - reflexivity.
Qed.

(** X21.  The CSV readers are at least as lenient about headers as
    [fetch_sp500]: a header that [fetch_sp500] accepts (symbol, ticker or
    tickers, blanks around it and case aside) is accepted by
    [read_sp500_csv] and [read_russell3000].  The converse fails, for
    instance for "Ticker Symbol". *)
Theorem csv_readers_accept_web_headers :
  (forall c, exact_header c = true -> ticker_like c = true) /\
  ticker_like "Ticker Symbol" = true /\ exact_header "Ticker Symbol" = false.
Proof.
  split; [|split; reflexivity].
  intros c H. unfold exact_header in H. apply mem_In in H.
  unfold PyStr.strip in H. rewrite lower_rstrip, lower_lstrip in H.
  fold (PyStr.strip (PyStr.lower c)) in H.
  unfold ticker_like. apply orb_true_iff.
  destruct H as [H|[H|[H|[]]]].
  - right. apply contains_strip. now rewrite <- H.
  - left. apply contains_strip. now rewrite <- H.
  - left. apply contains_strip. now rewrite <- H.
Qed.

Lemma csv_readers_accept_web_headers_witness : ticker_like "  Tickers " = true.
Proof.
  apply (proj1 csv_readers_accept_web_headers "  Tickers "). reflexivity.
Defined.

(** ** Progress lines *)

Lemma count_prints_app (l1 l2 : list event) :
  count_prints (l1 ++ l2) = count_prints l1 + count_prints l2.
Proof.
  induction l1 as [|[] l1 IH]; simpl; auto.
Qed.

Lemma probe_prints (w : world) (t tf : string) (cands : list (string * string)) :
  forall n r tr n', probe w t tf cands n = (r, tr, n') -> count_prints tr = 0.
Proof.
  induction cands as [|[ex sym] cands IH]; intros n r tr n' H; simpl in H.
  - now inversion H.
  - destruct (get_tv_rating w n ex sym tf) as [lbl|].
    + destruct (buy_label lbl); now inversion H.
    + destruct (probe w t tf cands (S n)) as [[r0 tr0] n0] eqn:E.
      inversion H; subst. simpl. eapply IH, E.
Qed.

Lemma div25_succ (i : nat) :
  S i / 25 = i / 25 + (if S i mod 25 =? 0 then 1 else 0).
Proof.
  pose proof (Nat.div_mod_eq i 25). pose proof (Nat.div_mod_eq (S i) 25).
  pose proof (Nat.mod_upper_bound i 25). pose proof (Nat.mod_upper_bound (S i) 25).
  destruct (Nat.eqb_spec (S i mod 25) 0); nia.
Qed.

Lemma scan_tickers_prints (g : globals) (w : world) (label tf : string) (total : nat)
    (tickers : list string) :
  forall i n rows tr n',
    scan_tickers g w label tf total (S i) tickers n = (rows, tr, n') ->
    count_prints tr + i / 25 = (i + List.length tickers) / 25.
Proof.
  induction tickers as [|t rest IH]; intros i n rows tr n' H; simpl in H.
  - inversion H; subst. cbn [count_prints List.length]. now rewrite Nat.add_0_r.
  - destruct (probe w t tf (tv_symbol_candidates g w t) n) as [[r1 tr1] n1] eqn:Ep.
    destruct (scan_tickers g w label tf total (S (S i)) rest n1)
      as [[rows2 tr2] n2] eqn:Es.
    inversion H; subst. specialize (IH _ _ _ _ _ Es).
    rewrite !count_prints_app, (probe_prints _ _ _ _ _ _ _ _ Ep).
    cbn [count_prints List.length].
    replace (i + S (List.length rest)) with (S i + List.length rest) by lia.
    rewrite <- IH, (div25_succ i). unfold shown.
    destruct (S i mod 25 =? 0); cbn [count_prints]; lia.
Qed.

(** X22.  Per timeframe the scanner prints one progress line after every
    25th ticker and one closing line: over N tickers and T timeframes it
    prints T (N / 25 + 1) lines to standard output. *)
Theorem progress_every_25_tickers :
  forall g w tickers label intervals n,
    count_prints (fst (scan_universe g w tickers label intervals n))
    = List.length intervals * (List.length tickers / 25 + 1).
Proof.
  intros g w tickers label intervals. induction intervals as [|tf more IH]; intros n.
  - reflexivity.
  - cbn [scan_universe].
    destruct (scan_tickers g w label tf (List.length tickers) 1 tickers n)
      as [[rows tr] n1] eqn:Es.
    specialize (IH n1).
    destruct (scan_universe g w tickers label more n1) as [tr' n2].
    cbn [fst List.length] in *.
    pose proof (scan_tickers_prints _ _ _ _ _ _ _ _ _ _ _ Es) as Hp.
    change (0 / 25) with 0 in Hp. rewrite Nat.add_0_r in Hp.
    change (0 + List.length tickers) with (List.length tickers) in Hp.
    rewrite count_prints_app. cbn [count_prints]. rewrite IH, Hp.
    generalize (List.length tickers / 25). intros q. nia.
Qed.
